(** * Loss-of-support compensation engine: a shallow embedding

    The Python sources [models.py], [wages.py], [income.py], [sharing.py],
    [sgk.py], [ayim.py], [life_tables.py] and [calculator.py] are rendered as
    Rocq functions, and the properties stated for [compute_support] are
    settled against them.

    Conventions of the embedding:
    - a Python [float] is an exact rational ([Q]); results are compared with
      [==] and the orders of [Q];
    - a [datetime.date] is a record of year, month and day, with ordinals,
      validation and day arithmetic as in CPython's [datetime];
    - a [dict] is an insertion-ordered association list;
    - a raised exception is the [Err] branch of [result]. *)

From Stdlib Require Import ZArith QArith Qround Qabs List String Bool Lia Lqa.
From Stdlib Require Import FinFun Qpower.
Import ListNotations.
Local Open Scope Z_scope.

Set Implicit Arguments.

(* ================================================================== *)
(** * Exceptions *)

Inductive error : Type :=
| ValidationError (msg : string)   (* ValueError raised by _validate_input *)
| ValueError                       (* ValueError raised by datetime.date *)
| OverflowError.                   (* date + timedelta out of range *)

Inductive result (A : Type) : Type :=
| Ok (a : A)
| Err (e : error).

Arguments Ok {A} a.
Arguments Err {A} e.

Definition bind {A B : Type} (m : result A) (f : A -> result B) : result B :=
  match m with
  | Ok a => f a
  | Err e => Err e
  end.

Notation "x <- m ;; k" := (bind m (fun x => k))
  (at level 61, m at next level, right associativity).
Notation "' pat <- m ;; k" := (bind m (fun x => match x with pat => k end))
  (at level 61, pat pattern, m at next level, right associativity).

Definition is_ok {A : Type} (m : result A) : bool :=
  match m with Ok _ => true | Err _ => false end.

(** A [for] loop whose body may raise: the state is threaded left to right
    and the first exception ends the loop. *)
Fixpoint foldM {A S : Type} (f : S -> A -> result S) (l : list A) (s : S)
  : result S :=
  match l with
  | [] => Ok s
  | a :: l' => s' <- f s a ;; foldM f l' s'
  end.

(* ================================================================== *)
(** * Dictionaries (insertion-ordered, as Python's [dict]) *)

Section Dict.
Variables (K V : Type).
Variable eqb : K -> K -> bool.

Definition dict := list (K * V).

Fixpoint dict_get (d : dict) (k : K) : option V :=
  match d with
  | [] => None
  | (k', v) :: d' => if eqb k k' then Some v else dict_get d' k
  end.

(** [d[k] = v]: overwrite in place, or append a new key at the end. *)
Fixpoint dict_set (d : dict) (k : K) (v : V) : dict :=
  match d with
  | [] => [(k, v)]
  | (k', v') :: d' =>
      if eqb k k' then (k', v) :: d' else (k', v') :: dict_set d' k v
  end.

Definition dict_mem (d : dict) (k : K) : bool :=
  match dict_get d k with Some _ => true | None => false end.

(** [d.get(k, dflt)] *)
Definition dict_get_or (d : dict) (k : K) (dflt : V) : V :=
  match dict_get d k with Some v => v | None => dflt end.

Definition dict_keys (d : dict) : list K := map fst d.
Definition dict_values (d : dict) : list V := map snd d.
End Dict.

Arguments dict_get {K V} eqb d k.
Arguments dict_set {K V} eqb d k v.
Arguments dict_mem {K V} eqb d k.
Arguments dict_get_or {K V} eqb d k dflt.
Arguments dict_keys {K V} d.
Arguments dict_values {K V} d.

(** Dictionaries keyed by a party name. *)
Definition sdict (V : Type) := dict string V.
Definition sget {V} (d : sdict V) (k : string) := dict_get String.eqb d k.
Definition sset {V} (d : sdict V) (k : string) (v : V) := dict_set String.eqb d k v.
Definition smem {V} (d : sdict V) (k : string) := dict_mem String.eqb d k.
Definition sget_or {V} (d : sdict V) (k : string) (v : V) := dict_get_or String.eqb d k v.

(** [k in names] for a list of names. *)
Definition name_in (k : string) (names : list string) : bool :=
  existsb (String.eqb k) names.

(* ================================================================== *)
(** * Float operations on rationals *)

Local Open Scope Q_scope.

Definition Qltb (a b : Q) : bool := negb (Qle_bool b a).
Definition Qmax (a b : Q) : Q := if Qltb a b then b else a.   (* max(a, b) *)

(** [sum(xs)]: left to right from 0. *)
Definition Qsum (xs : list Q) : Q := fold_left Qplus xs 0.

(** [int(x)]: truncation toward zero. *)
Definition Qint (x : Q) : Z := if Qle_bool 0 x then Qfloor x else Qceiling x.

(** [round(x)]: to the nearest integer, ties to the even one. *)
Definition Qround_half_even (x : Q) : Z :=
  let f := Qfloor x in
  let r := x - inject_Z f in
  if Qltb r (1 # 2) then f
  else if Qltb (1 # 2) r then (f + 1)%Z
  else if Z.even f then f else (f + 1)%Z.

(** [round(x, 2)] *)
Definition round2 (x : Q) : Q := inject_Z (Qround_half_even (x * 100)) / 100.

(** [x ** k] for an integer exponent. *)
Definition Qpow (x : Q) (k : Z) : Q := Qpower x k.

Local Close Scope Q_scope.

(* ================================================================== *)
(** * datetime.date *)

Record date : Type := mkDate { year : Z; month : Z; day : Z }.

Definition MINYEAR : Z := 1.
Definition MAXYEAR : Z := 9999.
Definition MAXORDINAL : Z := 3652059.

Definition is_leap (y : Z) : bool :=
  (y mod 4 =? 0) && (negb (y mod 100 =? 0) || (y mod 400 =? 0)).

Definition days_in_month (y m : Z) : Z :=
  if m =? 2 then (if is_leap y then 29 else 28)
  else if (m =? 4) || (m =? 6) || (m =? 9) || (m =? 11) then 30
  else 31.

(** Days before January 1st of year [y]. *)
Definition days_before_year (y : Z) : Z :=
  let y1 := y - 1 in y1 * 365 + y1 / 4 - y1 / 100 + y1 / 400.

(** _DAYS_BEFORE_MONTH, for a common year. *)
Definition DAYS_BEFORE_MONTH (m : Z) : Z :=
  match m with
  | 1 => 0 | 2 => 31 | 3 => 59 | 4 => 90 | 5 => 120 | 6 => 151
  | 7 => 181 | 8 => 212 | 9 => 243 | 10 => 273 | 11 => 304 | 12 => 334
  | _ => 365
  end.

Definition days_before_month (y m : Z) : Z :=
  DAYS_BEFORE_MONTH m + (if (2 <? m) && is_leap y then 1 else 0).

Definition valid_dateb (y m d : Z) : bool :=
  (MINYEAR <=? y) && (y <=? MAXYEAR) && (1 <=? m) && (m <=? 12)
  && (1 <=? d) && (d <=? days_in_month y m).

(** [date(y, m, d)]: the constructor checks its fields. *)
Definition date_new (y m d : Z) : result date :=
  if valid_dateb y m d then Ok (mkDate y m d) else Err ValueError.

Definition valid_date (dt : date) : Prop :=
  valid_dateb (year dt) (month dt) (day dt) = true.

(** [d.toordinal()] *)
Definition toordinal (dt : date) : Z :=
  days_before_year (year dt) + days_before_month (year dt) (month dt) + day dt.

(** _ord2ymd *)
Definition ord2ymd (n0 : Z) : Z * Z * Z :=
  let n := n0 - 1 in
  let n400 := n / 146097 in
  let n := n mod 146097 in
  let y := n400 * 400 + 1 in
  let n100 := n / 36524 in
  let n := n mod 36524 in
  let n4 := n / 1461 in
  let n := n mod 1461 in
  let n1 := n / 365 in
  let n := n mod 365 in
  let y := y + n100 * 100 + n4 * 4 + n1 in
  if (n1 =? 4) || (n100 =? 4) then (y - 1, 12, 31)
  else
    let leapyear := (n1 =? 3) && (negb (n4 =? 24) || (n100 =? 3)) in
    let m := Z.shiftr (n + 50) 5 in
    let preceding :=
      DAYS_BEFORE_MONTH m + (if (2 <? m) && leapyear then 1 else 0) in
    if n <? preceding then
      let m' := m - 1 in
      let dim := (if m' =? 2 then 28
                  else if (m' =? 4) || (m' =? 6) || (m' =? 9) || (m' =? 11)
                       then 30 else 31) in
      let preceding' :=
        preceding - (dim + (if (m' =? 2) && leapyear then 1 else 0)) in
      (y, m', n - preceding' + 1)
    else (y, m, n - preceding + 1).

(** [date.fromordinal(n)] builds the date through the checking constructor. *)
Definition fromordinal (n : Z) : result date :=
  let '(y, m, d) := ord2ymd n in date_new y m d.

(** [d + timedelta(days=n)] *)
Definition date_add_days (dt : date) (n : Z) : result date :=
  let o := toordinal dt + n in
  if (0 <? o) && (o <=? MAXORDINAL) then fromordinal o else Err OverflowError.

(** [d.replace(year=y)] and [d.replace(month=2, day=28, year=y)] *)
Definition date_replace_year (dt : date) (y : Z) : result date :=
  date_new y (month dt) (day dt).

(** [(a - b).days] *)
Definition date_diff_days (a b : date) : Z := toordinal a - toordinal b.

(** Dates compare as the tuples (year, month, day). *)
Definition date_ltb (a b : date) : bool :=
  (year a <? year b)
  || ((year a =? year b)
      && ((month a <? month b)
          || ((month a =? month b) && (day a <? day b)))).

Definition date_leb (a b : date) : bool := negb (date_ltb b a).

(** [max(a, b)] keeps [a] unless [b] is greater; [min(a, b)] keeps [a]
    unless [b] is smaller. *)
Definition date_max (a b : date) : date := if date_ltb a b then b else a.
Definition date_min (a b : date) : date := if date_ltb b a then b else a.

(** [(a, b) < (c, d)] on month-day pairs. *)
Definition md_ltb (m1 d1 m2 d2 : Z) : bool :=
  (m1 <? m2) || ((m1 =? m2) && (d1 <? d2)).

(* ================================================================== *)
(** * models.py *)

Inductive Gender := MALE | FEMALE.
Inductive LifeTableType := TRH2010 | PMF1931.
Inductive IncomeMode := ASGARI | MANUAL.
Inductive PassiveIncomeType := PASSIVE_MIN_WAGE | PASSIVE_RATIO.
Inductive SGKDeductionType := NONE | HALF | FULL.
Inductive ProfileType := YARGITAY | EXPERT.
Inductive DependentType := SPOUSE | CHILD | MOTHER | FATHER | OTHER.

Definition gender_eqb (a b : Gender) : bool :=
  match a, b with MALE, MALE | FEMALE, FEMALE => true | _, _ => false end.

Definition is_spouse (t : DependentType) : bool :=
  match t with SPOUSE => true | _ => false end.
Definition is_child (t : DependentType) : bool :=
  match t with CHILD => true | _ => false end.
(** [t in (MOTHER, FATHER)] *)
Definition is_parent (t : DependentType) : bool :=
  match t with MOTHER | FATHER => true | _ => false end.
(** [t in (SPOUSE, CHILD)] *)
Definition is_spouse_or_child (t : DependentType) : bool :=
  match t with SPOUSE | CHILD => true | _ => false end.

Record Person := mkPerson {
  name : string;
  birth : date;
  gender : Gender
}.

Record Dependent := mkDependent {
  person : Person;
  dep_type : DependentType;
  is_student : bool;
  reduced_share : bool;
  apply_marriage_discount : bool;
  has_income : bool;
  custom_support_years : option Q;
  custom_exit_date : option date
}.

Definition interval := (date * date)%type.

Record YearRow := mkYearRow {
  row_year : Z;
  age_supporter : Z;
  period_type : string;
  gross_support : Q;
  present_value : Q;
  shares : sdict Q
}.

Record CalculationInput := mkCalculationInput {
  olay_tarihi : date;
  hesap_tarihi : date;
  destek : Person;
  income_mode : IncomeMode;
  monthly_income : Q;
  regular_extra_income : Q;
  life_table : LifeTableType;
  active_start_age : Z;
  active_end_age : Z;
  passive_income_type : PassiveIncomeType;
  passive_ratio : Q;
  child_support_age_male : Z;
  child_support_age_female_non_student : Z;
  child_support_age_student : Z;
  report_discount_rate : Q;
  use_progresif : bool;
  technical_interest : Q;
  separate_parent_pool : bool;
  parent_share_cap_25_enabled : bool;
  sgk_monthly_income : Q;
  sgk_deduction_type : SGKDeductionType;
  sgk_psd_factor : Q;
  fault_rate : Q;
  apply_ayim : bool;
  training_enabled : bool;
  training_rate : Q;
  training_base_monthly : Q;
  mother_working : bool;
  father_working : bool;
  military_enabled : bool;
  military_start_age : Z;
  military_duration_months : Z;
  assume_marriage_if_single : bool;
  assumed_marriage_age : Z;
  assumed_child1_after_years : Z;
  assumed_child2_after_years : Z;
  assumed_spouse_has_income : bool;
  agi_use_family_status : bool;
  profile : ProfileType;
  dependents : list Dependent
}.

Record CalculationResult := mkCalculationResult {
  rows : list YearRow;
  total_support : Q;
  total_by_person : sdict Q;
  sgk_psd_deduction : Q;
  total_after_sgk : Q;
  total_after_fault : Q;
  training_total : Q;
  supporter_start : date;
  supporter_end : date;
  dependent_intervals : sdict (option interval);
  virtual_intervals : sdict interval
}.

(** The dataclass defaults of [Dependent] and [CalculationInput]. *)
Definition default_dependent (p : Person) (t : DependentType) : Dependent :=
  mkDependent p t false false true false None None.

Definition default_input (olay hesap : date) (d : Person) (mode : IncomeMode)
  : CalculationInput :=
  {| olay_tarihi := olay; hesap_tarihi := hesap; destek := d;
     income_mode := mode; monthly_income := 0; regular_extra_income := 0;
     life_table := TRH2010;
     active_start_age := 18; active_end_age := 60;
     passive_income_type := PASSIVE_MIN_WAGE; passive_ratio := 7 # 10;
     child_support_age_male := 18;
     child_support_age_female_non_student := 22;
     child_support_age_student := 25;
     report_discount_rate := 0; use_progresif := true;
     technical_interest := 18 # 10;
     separate_parent_pool := true; parent_share_cap_25_enabled := true;
     sgk_monthly_income := 0; sgk_deduction_type := NONE;
     sgk_psd_factor := 12;
     fault_rate := 0; apply_ayim := true;
     training_enabled := false; training_rate := 5 # 100;
     training_base_monthly := 0;
     mother_working := true; father_working := true;
     military_enabled := false; military_start_age := 20;
     military_duration_months := 12;
     assume_marriage_if_single := false; assumed_marriage_age := 25;
     assumed_child1_after_years := 2; assumed_child2_after_years := 4;
     assumed_spouse_has_income := false;
     agi_use_family_status := true;
     profile := EXPERT;
     dependents := [] |}.

(* ================================================================== *)
(** * wages.py *)

Module Wages.
Local Open Scope Q_scope.

Record wage_period := mkPeriod {
  p_start : date; p_end : date; gross_monthly : Q
}.

Definition last_period : wage_period :=
  mkPeriod (mkDate 2025 1 1) (mkDate 2100 1 1) (2600550 # 100).

Definition MIN_WAGE_PERIODS : list wage_period :=
  [ mkPeriod (mkDate 2016 1 1) (mkDate 2017 1 1) (164700 # 100);
    mkPeriod (mkDate 2017 1 1) (mkDate 2018 1 1) (177750 # 100);
    mkPeriod (mkDate 2018 1 1) (mkDate 2019 1 1) (202950 # 100);
    mkPeriod (mkDate 2019 1 1) (mkDate 2020 1 1) (255840 # 100);
    mkPeriod (mkDate 2020 1 1) (mkDate 2021 1 1) (294300 # 100);
    mkPeriod (mkDate 2021 1 1) (mkDate 2022 1 1) (357750 # 100);
    mkPeriod (mkDate 2022 1 1) (mkDate 2022 7 1) (500400 # 100);
    mkPeriod (mkDate 2022 7 1) (mkDate 2023 1 1) (647100 # 100);
    mkPeriod (mkDate 2023 1 1) (mkDate 2023 7 1) (1000800 # 100);
    mkPeriod (mkDate 2023 7 1) (mkDate 2024 1 1) (1341450 # 100);
    mkPeriod (mkDate 2024 1 1) (mkDate 2025 1 1) (2000250 # 100);
    last_period ].

(** The [for] loop of [get_min_wage_gross]: the first period containing
    [dt], if any. *)
Fixpoint find_period (ps : list wage_period) (dt : date) : option Q :=
  match ps with
  | [] => None
  | p :: ps' =>
      if date_leb (p_start p) dt && date_ltb dt (p_end p)
      then Some (gross_monthly p)
      else find_period ps' dt
  end.

Definition get_min_wage_gross (dt : date) : Q :=
  match find_period MIN_WAGE_PERIODS dt with
  | Some g => g
  | None => gross_monthly (last MIN_WAGE_PERIODS last_period)
  end.

(** The rate [oran] accumulated by [compute_agi]: 50% for the worker plus
    the family add-ons. *)
Definition agi_oran (married spouse_has_income : bool) (child_count : Z) : Q :=
  let oran := 50 # 100 in
  let oran := if married && negb spouse_has_income
              then oran + (10 # 100) else oran in
  let oran := if (child_count >=? 1)%Z then oran + (75 # 1000) else oran in
  let oran := if (child_count >=? 2)%Z then oran + (75 # 1000) else oran in
  let oran := if (child_count >=? 3)%Z then oran + (10 # 100) else oran in
  let oran := if (child_count >=? 4)%Z then oran + (5 # 100) else oran in
  let oran := if (child_count >=? 5)%Z then oran + (5 # 100) else oran in
  oran.

Definition compute_agi (dt : date) (married spouse_has_income : bool)
           (child_count : Z) : Q :=
  let y := year dt in
  if (y <? 2008)%Z || (y >=? 2022)%Z then 0
  else
    let brut := get_min_wage_gross dt in
    let oran := agi_oran married spouse_has_income child_count in
    let agi_yillik := brut * oran * (15 # 100) in
    let agi_aylik := agi_yillik / 12 in
    round2 agi_aylik.

Definition get_min_wage_net (dt : date) (use_agi married spouse_has_income : bool)
           (child_count : Z) : Q :=
  let y := year dt in
  let brut := get_min_wage_gross dt in
  let sgk_emp := brut * (14 # 100) in
  let ui_emp := brut * (1 # 100) in
  let vergi_matrah := brut - sgk_emp - ui_emp in
  if (y >=? 2022)%Z then round2 (brut - sgk_emp - ui_emp)
  else
    let gv_rate := 15 # 100 in
    let dv_rate := 759 # 100000 in
    let gelir_vergisi := vergi_matrah * gv_rate in
    let damga := brut * dv_rate in
    let agi := if use_agi
               then compute_agi dt married spouse_has_income child_count
               else 0 in
    let odenen_gv := Qmax 0 (gelir_vergisi - agi) in
    round2 (brut - sgk_emp - ui_emp - odenen_gv - damga).

End Wages.

(* ================================================================== *)
(** * income.py *)

Module Income.
Import Wages.
Local Open Scope Q_scope.

(** [(a - b).days / 365.25] *)
Definition years_between (a b : date) : Q :=
  inject_Z (date_diff_days a b) / (36525 # 100).

Definition _family_status_for_agi (ci : CalculationInput) (dt : date)
  : bool * bool * Z :=
  let spouse_exists :=
    existsb (fun d => is_spouse (dep_type d)) (dependents ci) in
  let spouse_has_income :=
    fold_left (fun acc d => if is_spouse (dep_type d) then has_income d else acc)
              (dependents ci) false in
  let age := years_between dt (birth (destek ci)) in
  let '(spouse_exists, spouse_has_income) :=
    if negb spouse_exists && assume_marriage_if_single ci
       && Qle_bool (inject_Z (assumed_marriage_age ci)) age
    then (true, assumed_spouse_has_income ci)
    else (spouse_exists, spouse_has_income) in
  let child_count :=
    fold_left (fun n d =>
                 if is_child (dep_type d)
                    && Qltb (years_between dt (birth (person d))) 18
                 then (n + 1)%Z else n)
              (dependents ci) 0%Z in
  let child_count :=
    if assume_marriage_if_single ci then
      let child1_age :=
        age - inject_Z (assumed_marriage_age ci + assumed_child1_after_years ci) in
      let n1 := if Qle_bool 0 child1_age && Qltb child1_age 18
                then (child_count + 1)%Z else child_count in
      let child2_age :=
        age - inject_Z (assumed_marriage_age ci + assumed_child2_after_years ci) in
      if Qle_bool 0 child2_age && Qltb child2_age 18 then (n1 + 1)%Z else n1
    else child_count in
  (spouse_exists, spouse_has_income, child_count).

Definition calculate_monthly_income (ci : CalculationInput) (dt : date) : Q :=
  match income_mode ci with
  | ASGARI =>
      let '(spouse_exists, spouse_has_income, child_count) :=
        _family_status_for_agi ci dt in
      get_min_wage_net dt (agi_use_family_status ci)
                       spouse_exists spouse_has_income child_count
  | MANUAL => monthly_income ci + regular_extra_income ci
  end.

End Income.

(* ================================================================== *)
(** * sgk.py *)

Definition compute_sgk_psd (ci : CalculationInput) : Q :=
  if Qle_bool (sgk_monthly_income ci) 0 then 0%Q
  else (sgk_monthly_income ci * 12 * sgk_psd_factor ci)%Q.

(* ================================================================== *)
(** * ayim.py *)

Module Ayim.
Local Open Scope Q_scope.

Definition between (lo hi age : Z) : bool := (lo <=? age)%Z && (age <=? hi)%Z.

Definition _ayim_base_rate (age : Z) (g : Gender) : Q :=
  match g with
  | FEMALE =>
      if between 17 20 age then 52
      else if between 21 25 age then 40
      else if between 26 30 age then 27
      else if between 31 35 age then 17
      else if between 36 40 age then 9
      else if between 41 50 age then 2
      else if between 51 55 age then 1
      else 0
  | MALE =>
      if between 17 20 age then 90
      else if between 21 25 age then 70
      else if between 26 30 age then 48
      else if between 31 35 age then 30
      else if between 36 40 age then 15
      else if between 41 50 age then 4
      else if between 51 55 age then 2
      else 0
  end.

Definition get_marriage_discount_factor (age : Z) (g : Gender)
           (child_under18_count : Z) : Q :=
  let base := _ayim_base_rate age g in
  let adj := base - 5 * inject_Z child_under18_count in
  let adj := if Qltb adj 0 then 0 else adj in
  1 - adj / 100.

End Ayim.

(* ================================================================== *)
(** * sharing.py *)

Module Sharing.
Local Open Scope Q_scope.

Definition base_shares (ci : CalculationInput) : sdict Q :=
  fold_left
    (fun sh d =>
       let key := name (person d) in
       match dep_type d with
       | SPOUSE => sset sh key 2
       | CHILD => sset sh key 1
       | MOTHER | FATHER => sset sh key (if reduced_share d then 1 # 2 else 1)
       | OTHER => sset sh key 1
       end)
    (dependents ci) [("destek"%string, 2)].

Definition parent_names (ci : CalculationInput) : list string :=
  map (fun d => name (person d))
      (filter (fun d => is_parent (dep_type d)) (dependents ci)).

Definition normalize_shares (sh : sdict Q) : sdict Q :=
  let total := Qsum (dict_values sh) in
  if Qle_bool total 0 then map (fun '(k, _) => (k, 0)) sh
  else map (fun '(k, v) => (k, v / total)) sh.

End Sharing.

(** [range(lo, hi)] *)
Definition Z_range (lo hi : Z) : list Z :=
  map (fun i => lo + Z.of_nat i) (seq 0 (Z.to_nat (hi - lo))).

Section Engine.

(** The life tables are read from [data/trh2010.csv] and [data/pmf1931.csv],
    which are external data: the rows (age, male_ex, female_ex) of each file
    are a parameter, [None] standing for an absent file. *)
Variable csv_rows : LifeTableType -> option (list (Z * Q * Q)).

(* ================================================================== *)
(** * life_tables.py *)

Definition ex_key_eqb (a b : Gender * Z) : bool :=
  gender_eqb (fst a) (fst b) && (snd a =? snd b).

Definition LifeTable := dict (Gender * Z) Q.

Definition fallback_base (table_type : LifeTableType) (age : Z) : Q :=
  match table_type with
  | TRH2010 => if age =? 0 then 78%Q else Qmax 0 (78 - inject_Z age)
  | PMF1931 => if age =? 0 then 70%Q else Qmax 0 (70 - inject_Z age)
  end.

(** [_load_table]; the process-wide cache only saves reloading. *)
Definition _load_table (table_type : LifeTableType) : LifeTable :=
  match csv_rows table_type with
  | Some csv =>
      fold_left
        (fun ex_map '(age, m_ex, f_ex) =>
           dict_set ex_key_eqb
                    (dict_set ex_key_eqb ex_map (MALE, age) m_ex)
                    (FEMALE, age) f_ex)
        csv []
  | None =>
      fold_left
        (fun ex_map age =>
           let base := fallback_base table_type age in
           dict_set ex_key_eqb
                    (dict_set ex_key_eqb ex_map (MALE, age) base)
                    (FEMALE, age) (base + 3)%Q)
        (Z_range 0 111) []
  end.

(** [min(ages, key=lambda a: abs(a - age))]: the first closest age. *)
Fixpoint closest_age (ages : list Z) (age best : Z) : Z :=
  match ages with
  | [] => best
  | a :: ages' =>
      closest_age ages' age
                  (if Z.abs (a - age) <? Z.abs (best - age) then a else best)
  end.

Definition get_life_expectancy (age : Z) (table_type : LifeTableType)
           (g : Gender) : Q :=
  let age := if age <? 0 then 0 else age in
  let age := if 110 <? age then 110 else age in
  let table := _load_table table_type in
  match dict_get ex_key_eqb table (g, age) with
  | Some v => v
  | None =>
      let ages := map snd (filter (fun k => gender_eqb (fst k) g)
                                  (dict_keys table)) in
      match ages with
      | [] => 0%Q
      | a0 :: rest =>
          dict_get_or ex_key_eqb table (g, closest_age rest age a0) 0%Q
      end
  end.

(* ================================================================== *)
(** * calculator.py *)

Definition INF_DATE : date := mkDate 9999 12 31.

Definition msg_hesap : string := "Hesap tarihi, olay tarihinden önce olamaz.".
Definition msg_birth : string :=
  "Destek doğum tarihi, olay tarihinden sonra ya da olay tarihiyle aynı olamaz.".
Definition msg_fault : string := "Kusur oranı 0 ile 100 arasında olmalıdır.".
Definition msg_report : string := "Rapor iskonto oranı negatif olamaz.".
Definition msg_technical : string := "Teknik faiz oranı negatif olamaz.".

Definition _validate_input (ci : CalculationInput) : result unit :=
  if date_ltb (hesap_tarihi ci) (olay_tarihi ci)
  then Err (ValidationError msg_hesap)
  else if negb (date_ltb (birth (destek ci)) (olay_tarihi ci))
  then Err (ValidationError msg_birth)
  else if negb (Qle_bool 0 (fault_rate ci) && Qle_bool (fault_rate ci) 100)
  then Err (ValidationError msg_fault)
  else if Qltb (report_discount_rate ci) 0
  then Err (ValidationError msg_report)
  else if Qltb (technical_interest ci) 0
  then Err (ValidationError msg_technical)
  else Ok tt.

Definition _age_of (b ref_date : date) : Q :=
  Qmax 0 (inject_Z (date_diff_days ref_date b) / (36525 # 100))%Q.

Definition _int_age_on (b ref : date) : Z :=
  let age := year ref - year b in
  if md_ltb (month ref) (day ref) (month b) (day b) then age - 1 else age.

Definition _add_years (d : date) (years : Q) : result date :=
  let int_years := Qint years in
  let frac_years := (years - inject_Z int_years)%Q in
  d2 <- match date_replace_year d (year d + int_years) with
        | Err ValueError => date_new (year d + int_years) 2 28
        | r => r
        end ;;
  let extra_days := Qround_half_even (frac_years * (36525 # 100))%Q in
  date_add_days d2 extra_days.

Definition _expected_death_date (b : date) (g : Gender) (ci : CalculationInput)
  : result date :=
  let age_at_hesap := _age_of b (hesap_tarihi ci) in
  let le_years := get_life_expectancy (Qint age_at_hesap) (life_table ci) g in
  _add_years (hesap_tarihi ci) le_years.

Definition _overlap_days (start1 end1 start2 end2 : date) : Z :=
  let start := date_max start1 start2 in
  let end_ := date_min end1 end2 in
  if date_leb end_ start then 0 else date_diff_days end_ start.

Definition _yearly_support (ci : CalculationInput) (y : Z) : result Q :=
  dt <- date_new y (month (olay_tarihi ci)) (day (olay_tarihi ci)) ;;
  let age := _age_of (birth (destek ci)) dt in
  let in_military :=
    military_enabled ci && gender_eqb (gender (destek ci)) MALE
    && (let start := inject_Z (military_start_age ci) in
        let dur_years := (inject_Z (military_duration_months ci) / 12)%Q in
        let end_ := (start + dur_years)%Q in
        Qle_bool start age && Qltb age end_) in
  if in_military then Ok 0%Q
  else if Qltb age (inject_Z (active_start_age ci)) then Ok 0%Q
  else if Qle_bool age (inject_Z (active_end_age ci))
  then Ok (Income.calculate_monthly_income ci dt * 12)%Q
  else match passive_income_type ci with
       | PASSIVE_MIN_WAGE =>
           Ok (Wages.get_min_wage_net dt false false false 0 * 12)%Q
       | PASSIVE_RATIO =>
           Ok (Income.calculate_monthly_income ci dt * 12 * passive_ratio ci)%Q
       end.

Definition _period_type (y : Z) (ci : CalculationInput) : result string :=
  ref_date <- date_new y (month (olay_tarihi ci)) (day (olay_tarihi ci)) ;;
  if date_ltb ref_date (hesap_tarihi ci) then Ok "Geçmiş"%string
  else
    let age := _age_of (birth (destek ci)) ref_date in
    if Qle_bool age (inject_Z (active_end_age ci))
    then Ok "Gelecek Aktif"%string
    else Ok "Gelecek Pasif"%string.

(** ** Step 2 of [compute_support]: the dependents' intervals *)

(** [min(a, b, c, d)]: the first smallest argument. *)
Definition date_min4 (a b c d : date) : date :=
  date_min (date_min (date_min a b) c) d.

Definition child_support_years (ci : CalculationInput) (d : Dependent) : Q :=
  match custom_support_years d with
  | Some y => y
  | None =>
      if is_student d then inject_Z (child_support_age_student ci)
      else match gender (person d) with
           | FEMALE => inject_Z (child_support_age_female_non_student ci)
           | MALE => inject_Z (child_support_age_male ci)
           end
  end.

Definition child_limit_of (ci : CalculationInput) (d : Dependent) : result date :=
  match dep_type d with
  | CHILD => _add_years (birth (person d)) (child_support_years ci d)
  | _ => Ok INF_DATE
  end.

(** The body of the loop over [ci.dependents]: the value stored in
    [dep_intervals] under the dependent's name. *)
Definition dependent_interval (ci : CalculationInput) (supporter_end : date)
           (d : Dependent) : result (option interval) :=
  death_date <- _expected_death_date (birth (person d)) (gender (person d)) ci ;;
  let start := date_max (olay_tarihi ci) (birth (person d)) in
  child_limit <- child_limit_of ci d ;;
  let custom_exit :=
    match custom_exit_date d with Some x => x | None => INF_DATE end in
  let end_ := date_min4 death_date child_limit custom_exit supporter_end in
  Ok (if date_leb end_ start then None else Some (start, end_)).

(** [dep_death_dates] and [dep_by_name] are written by the loop and never
    read; only [dep_intervals] is kept. *)
Definition dep_intervals_of (ci : CalculationInput) (supporter_end : date)
  : result (sdict (option interval)) :=
  foldM (fun di d =>
           iv <- dependent_interval ci supporter_end d ;;
           Ok (sset di (name (person d)) iv))
        (dependents ci) [].

(** [dep_intervals.get(name)] followed by [if not interval]. *)
Definition interval_of (di : sdict (option interval)) (k : string)
  : option interval :=
  match sget di k with
  | Some (Some iv) => Some iv
  | _ => None
  end.

(** ** Step 3: the assumed spouse and children of a single supporter *)

Definition VIRTUAL_SPOUSE : string := "Varsayılan Eş".
Definition VIRTUAL_CHILD1 : string := "Varsayılan Çocuk 1".
Definition VIRTUAL_CHILD2 : string := "Varsayılan Çocuk 2".

Definition virtual_child (ci : CalculationInput) (supporter_end : date)
           (st : sdict interval * sdict date) (lb : string * date)
  : result (sdict interval * sdict date) :=
  let '(vi, vcb) := st in
  let '(label, b) := lb in
  end0 <- _add_years b (inject_Z (child_support_age_male ci)) ;;
  let end_ := date_min end0 supporter_end in
  let start := date_max (olay_tarihi ci) b in
  if date_ltb start end_
  then Ok (sset vi label (start, end_), sset vcb label b)
  else Ok (vi, vcb).

Definition virtual_family (ci : CalculationInput) (supporter_end : date)
  : result (sdict interval * sdict date) :=
  let has_real_spouse :=
    existsb (fun d => is_spouse (dep_type d)) (dependents ci) in
  if assume_marriage_if_single ci && negb has_real_spouse then
    marriage_date <-
      _add_years (birth (destek ci)) (inject_Z (assumed_marriage_age ci)) ;;
    if date_ltb marriage_date supporter_end then
      let vs_start := date_max (olay_tarihi ci) marriage_date in
      let vs_end := supporter_end in
      let vi := if date_ltb vs_start vs_end
                then sset [] VIRTUAL_SPOUSE (vs_start, vs_end) else [] in
      child1_birth <-
        _add_years (birth (destek ci))
          (inject_Z (assumed_marriage_age ci + assumed_child1_after_years ci)) ;;
      child2_birth <-
        _add_years (birth (destek ci))
          (inject_Z (assumed_marriage_age ci + assumed_child2_after_years ci)) ;;
      foldM (virtual_child ci supporter_end)
            [(VIRTUAL_CHILD1, child1_birth); (VIRTUAL_CHILD2, child2_birth)]
            (vi, [])
    else Ok ([], [])
  else Ok ([], []).

(** ** Step 4: base shares and the parents' fraction *)

Record context := mkContext {
  cx_supporter_end : date;
  cx_dep_intervals : sdict (option interval);
  cx_virtual_intervals : sdict interval;
  cx_virtual_children_birth : sdict date;
  cx_base : sdict Q;
  cx_parents : list string;
  cx_parent_fraction : Q
}.

Definition parent_fraction_of (base : sdict Q) (parents : list string) : Q :=
  let total_base := Qsum (dict_values base) in
  let parent_base_total := Qsum (map (fun p => sget_or base p 0%Q) parents) in
  if Qltb 0 total_base && Qltb 0 parent_base_total
  then (parent_base_total / total_base)%Q else 0%Q.

Definition prepare (ci : CalculationInput) : result context :=
  supporter_end <-
    _expected_death_date (birth (destek ci)) (gender (destek ci)) ci ;;
  dep_intervals <- dep_intervals_of ci supporter_end ;;
  ' (vi, vcb) <- virtual_family ci supporter_end ;;
  let base := Sharing.base_shares ci in
  let parents := Sharing.parent_names ci in
  Ok (mkContext supporter_end dep_intervals vi vcb base parents
                (parent_fraction_of base parents)).

(** ** Step 5: one calendar year *)

Section Year.
Local Open Scope Q_scope.

Variable ci : CalculationInput.
Variable cx : context.
(** [year], [year_start], [year_end], [days_in_year] of the loop body. *)
Variable y : Z.
Variables year_start year_end : date.
Variable days_in_year : Z.

Definition overlap_year (iv : interval) : Z :=
  _overlap_days (fst iv) (snd iv) year_start year_end.

(** [days / days_in_year] *)
Definition day_fraction (days : Z) : Q := inject_Z days / inject_Z days_in_year.

(** Lines 263-277: report discount or technical interest. *)
Definition discount_rate_of : Q :=
  if use_progresif ci && Qltb 0 (report_discount_rate ci)
  then report_discount_rate ci / 100
  else if negb (use_progresif ci) && Qltb 0 (technical_interest ci)
  then technical_interest ci / 100
  else 0.

Definition present_value_of (gross : Q) : Q :=
  let k := (y - year (hesap_tarihi ci))%Z in
  if (0 <? k)%Z then
    let discount_rate := discount_rate_of in
    if Qltb 0 discount_rate
    then let discount_factor := 1 / Qpow (1 + discount_rate) k in
         gross * discount_factor
    else gross
  else gross.

(** 5.a: the loop over [parents] building [active_parents] and
    [parent_weights]. *)
Definition scan_parent (st : list string * sdict Q) (p_name : string)
  : list string * sdict Q :=
  let '(active_parents, parent_weights) := st in
  match interval_of (cx_dep_intervals cx) p_name with
  | None => st
  | Some iv =>
      let pdays := overlap_year iv in
      if (pdays <=? 0)%Z then st
      else (active_parents ++ [p_name],
            sset parent_weights p_name
                 (sget_or (cx_base cx) p_name 0 * day_fraction pdays))
  end.

Definition interval_active (o : option interval) : bool :=
  match o with
  | Some iv => (0 <? overlap_year iv)%Z
  | None => false
  end.

(** The two searches (real, then virtual) setting [has_spouse_or_child]. *)
Definition has_spouse_or_child : bool :=
  existsb (fun d => is_spouse_or_child (dep_type d)
                    && interval_active
                         (interval_of (cx_dep_intervals cx) (name (person d))))
          (dependents ci)
  || existsb (fun kv => interval_active (Some (snd kv)))
             (cx_virtual_intervals cx).

(** [sum(parent_weights.values()) or 1.0] *)
Definition or_one (s : Q) : Q := if Qeq_bool s 0 then 1 else s.

(** 5.a as a whole: [(parent_amounts, parent_total)]. *)
Definition parent_pool (pv_year : Q) : sdict Q * Q :=
  if separate_parent_pool ci then
    let '(active_parents, parent_weights) :=
      fold_left scan_parent (cx_parents cx) ([], []) in
    match active_parents with
    | [] => ([], 0)
    | _ :: _ =>
        if Qltb 0 (cx_parent_fraction cx) then
          let parent_total := pv_year * cx_parent_fraction cx in
          let parent_total :=
            if parent_share_cap_25_enabled ci && has_spouse_or_child then
              let max_parent_total := pv_year * (25 # 100) in
              if Qltb max_parent_total parent_total
              then max_parent_total else parent_total
            else parent_total in
          match active_parents with
          | [p] => (sset [] p parent_total, parent_total)
          | _ =>
              let wsum := or_one (Qsum (dict_values parent_weights)) in
              (fold_left
                 (fun pa p_name =>
                    let w := sget_or parent_weights p_name 0 in
                    sset pa p_name (parent_total * (w / wsum)))
                 active_parents [],
               parent_total)
          end
        else ([], 0)
    end
  else ([], 0).

(** [d[k] = d.get(k, 0.0) + w] *)
Definition sadd (d : sdict Q) (k : string) (w : Q) : sdict Q :=
  sset d k (sget_or d k 0 + w).

(** 5.b: the weight of one real dependent. *)
Definition weigh_dependent (npw : sdict Q) (d : Dependent) : sdict Q :=
  let nm := name (person d) in
  match interval_of (cx_dep_intervals cx) nm with
  | None => npw
  | Some iv =>
      let ddays := overlap_year iv in
      if (ddays <=? 0)%Z then npw
      else
        let frac := day_fraction ddays in
        match dep_type d with
        | SPOUSE => sadd npw nm (2 * frac)
        | CHILD => sadd npw nm (1 * frac)
        | MOTHER | FATHER =>
            if negb (separate_parent_pool ci) then
              let base_w := if reduced_share d then 1 # 2 else 1 in
              sadd npw nm (base_w * frac)
            else npw
        | OTHER => npw
        end
  end.

(** 5.b: the weight of one virtual party. *)
Definition weigh_virtual (npw : sdict Q) (kv : string * interval) : sdict Q :=
  let '(vname, iv) := kv in
  let ddays := overlap_year iv in
  if (ddays <=? 0)%Z then npw
  else
    let frac := day_fraction ddays in
    let w := if String.eqb vname VIRTUAL_SPOUSE then 2 * frac else 1 * frac in
    sadd npw vname w.

Definition non_parent_weights (fraction_supporter : Q) : sdict Q :=
  let npw := sset [] "destek"%string (2 * fraction_supporter) in
  let npw := fold_left weigh_dependent (dependents ci) npw in
  fold_left weigh_virtual (cx_virtual_intervals cx) npw.

(** [if p in sa: sa[p] *= s] and [sa[n] *= s] (the key is present). *)
Definition scale_present (s : Q) (sa : sdict Q) (p : string) : sdict Q :=
  if smem sa p then sset sa p (sget_or sa p 0 * s) else sa.

Definition scale_key (s : Q) (sa : sdict Q) (n : string) : sdict Q :=
  sset sa n (sget_or sa n 0 * s).

(** 5.b-2: the 25% cap of the single-pool mode. *)
Definition cap_single_pool (pv_year : Q) (shares_amount : sdict Q) : sdict Q :=
  if negb (separate_parent_pool ci) && parent_share_cap_25_enabled ci then
    let parents := cx_parents cx in
    let parent_sum := Qsum (map (fun p => sget_or shares_amount p 0) parents) in
    let other_names :=
      filter (fun n => negb (name_in n parents)) (dict_keys shares_amount) in
    let others_sum :=
      Qsum (map (fun n => sget_or shares_amount n 0) other_names) in
    if Qltb 0 parent_sum && Qltb 0 others_sum then
      let max_parent_total := pv_year * (25 # 100) in
      if Qltb (max_parent_total + (1 # 1000000000)) parent_sum then
        let scale_parent := max_parent_total / parent_sum in
        let remaining := pv_year - max_parent_total in
        let scale_others :=
          if Qltb 0 others_sum then remaining / others_sum else 1 in
        let sa := fold_left (scale_present scale_parent) parents shares_amount in
        fold_left (scale_key scale_others) other_names sa
      else shares_amount
    else shares_amount
  else shares_amount.

(** Lines 406-408: the separate pool's amounts join the shares. *)
Definition add_parent_amounts (parent_amounts shares_amount : sdict Q)
  : sdict Q :=
  fold_left (fun sa kv => sadd sa (fst kv) (snd kv)) parent_amounts shares_amount.

(** 5.c: the remarriage discount. [date(year, 7, 1)] is valid whenever
    [date(year, 1, 1)] is. *)
Definition mid_date : date := mkDate y 7 1.

Definition count_under18 : Z :=
  let real :=
    fold_left
      (fun n d =>
         if is_child (dep_type d)
            && interval_active
                 (interval_of (cx_dep_intervals cx) (name (person d)))
            && Qltb (_age_of (birth (person d)) mid_date) 18
         then (n + 1)%Z else n)
      (dependents ci) 0%Z in
  fold_left
    (fun n kv =>
       if interval_active (sget (cx_virtual_intervals cx) (fst kv))
          && Qltb (_age_of (snd kv) mid_date) 18
       then (n + 1)%Z else n)
    (cx_virtual_children_birth cx) real.

Definition discount_spouse (under18 : Z) (sa : sdict Q) (d : Dependent)
  : sdict Q :=
  if is_spouse (dep_type d) && apply_marriage_discount d
     && interval_active (interval_of (cx_dep_intervals cx) (name (person d)))
  then
    let spouse_age := _age_of (birth (person d)) mid_date in
    let factor :=
      Ayim.get_marriage_discount_factor (Qint spouse_age)
                                        (gender (person d)) under18 in
    let amt := sget_or sa (name (person d)) 0 in
    sset sa (name (person d)) (amt * factor)
  else sa.

Definition discount_virtual_spouse (under18 : Z) (sa : sdict Q) : sdict Q :=
  if interval_active (sget (cx_virtual_intervals cx) VIRTUAL_SPOUSE) then
    let spouse_age := _age_of (birth (destek ci)) mid_date in
    let virt_spouse_gender :=
      if gender_eqb (gender (destek ci)) MALE then FEMALE else MALE in
    let factor :=
      Ayim.get_marriage_discount_factor (Qint spouse_age)
                                        virt_spouse_gender under18 in
    let amt := sget_or sa VIRTUAL_SPOUSE 0 in
    sset sa VIRTUAL_SPOUSE (amt * factor)
  else sa.

Definition ayim_discount (sa : sdict Q) : sdict Q :=
  if apply_ayim ci then
    let under18 := count_under18 in
    let sa := fold_left (discount_spouse under18) (dependents ci) sa in
    discount_virtual_spouse under18 sa
  else sa.

(** [shares_amount] after 5.a and 5.b, before the remarriage discount. *)
Definition shares_before_discount (fraction_supporter pv_year : Q) : sdict Q :=
  let '(parent_amounts, parent_total) := parent_pool pv_year in
  let non_parent_total := pv_year - parent_total in
  let non_parent_total := if Qltb non_parent_total 0 then 0 else non_parent_total in
  let non_parent_ratios :=
    Sharing.normalize_shares (non_parent_weights fraction_supporter) in
  let shares_amount :=
    map (fun kv => (fst kv, non_parent_total * snd kv)) non_parent_ratios in
  let shares_amount := cap_single_pool pv_year shares_amount in
  add_parent_amounts parent_amounts shares_amount.

(** The shares of the year, from 5.a to 5.c. *)
Definition year_shares (fraction_supporter pv_year : Q) : sdict Q :=
  ayim_discount (shares_before_discount fraction_supporter pv_year).

End Year.

(** The loop body: [None] stands for [continue]. *)
Definition year_row (ci : CalculationInput) (cx : context) (y : Z)
  : result (option YearRow) :=
  year_start <- date_new y 1 1 ;;
  year_end <- date_new (y + 1) 1 1 ;;
  let days_in_year := date_diff_days year_end year_start in
  let supp_days :=
    _overlap_days (olay_tarihi ci) (cx_supporter_end cx) year_start year_end in
  if supp_days <=? 0 then Ok None
  else
    let fraction_supporter := day_fraction days_in_year supp_days in
    yearly_full <- _yearly_support ci y ;;
    if Qle_bool yearly_full 0 then Ok None
    else
      let gross_support := (yearly_full * fraction_supporter)%Q in
      let pv_year := present_value_of ci y gross_support in
      let shares_amount :=
        year_shares ci cx y year_start year_end days_in_year
                    fraction_supporter pv_year in
      ref_date <- date_new y (month (olay_tarihi ci)) (day (olay_tarihi ci)) ;;
      let age_supporter := _int_age_on (birth (destek ci)) ref_date in
      period_type <- _period_type y ci ;;
      Ok (Some (mkYearRow y age_supporter period_type gross_support pv_year
                          shares_amount)).

Definition rows_loop (ci : CalculationInput) (cx : context) (years : list Z)
  : result (list YearRow) :=
  foldM (fun rows y =>
           r <- year_row ci cx y ;;
           match r with
           | Some row => Ok (rows ++ [row])
           | None => Ok rows
           end)
        years [].

(** ** Step 6: totals and the statutory adjustments *)

Definition person_totals (rows : list YearRow) : sdict Q :=
  fold_left
    (fun tbp r => fold_left (fun t kv => sadd t (fst kv) (snd kv)) (shares r) tbp)
    rows [].

Definition after_sgk (ci : CalculationInput) (total_support psd : Q) : Q :=
  let total_after_sgk :=
    match sgk_deduction_type ci with
    | NONE => total_support
    | HALF => (total_support - psd * (1 # 2))%Q
    | FULL => (total_support - psd)%Q
    end in
  if Qltb total_after_sgk 0 then 0%Q else total_after_sgk.

(** The last [FATHER] and the last [MOTHER] of the dependents. *)
Definition last_name_of (t : DependentType -> bool) (deps : list Dependent)
  : option string :=
  fold_left (fun acc d => if t (dep_type d) then Some (name (person d)) else acc)
            deps None.

Definition is_father (t : DependentType) : bool :=
  match t with FATHER => true | _ => false end.
Definition is_mother (t : DependentType) : bool :=
  match t with MOTHER => true | _ => false end.

(** [if ci.father_working and father_name]: an empty name is falsy. *)
Definition truthy_name (o : option string) : option string :=
  match o with
  | Some EmptyString => None
  | o => o
  end.

Record totals := mkTotals {
  t_total_support : Q;
  t_total_by_person : sdict Q;
  t_total_after_sgk : Q;
  t_training_total : Q
}.

Definition training (ci : CalculationInput) (t : totals) : totals :=
  let age_at_olay := _age_of (birth (destek ci)) (olay_tarihi ci) in
  if training_enabled ci && Qltb age_at_olay 18 then
    let yil_sayisi := (18 - age_at_olay)%Q in
    let base_monthly :=
      if Qltb 0 (training_base_monthly ci) then training_base_monthly ci
      else Wages.get_min_wage_net (olay_tarihi ci) false false false 0 in
    let father_name := last_name_of is_father (dependents ci) in
    let mother_name := last_name_of is_mother (dependents ci) in
    let cost := (base_monthly * 12 * training_rate ci * yil_sayisi)%Q in
    let '(training_total, tbp) :=
      match (if father_working ci then truthy_name father_name else None) with
      | Some f => ((0 + cost)%Q, sset (t_total_by_person t) f
                                      (sget_or (t_total_by_person t) f 0 - cost)%Q)
      | None => (0%Q, t_total_by_person t)
      end in
    let '(training_total, tbp) :=
      match (if mother_working ci then truthy_name mother_name else None) with
      | Some m => ((training_total + cost)%Q,
                   sset tbp m (sget_or tbp m 0 - cost)%Q)
      | None => (training_total, tbp)
      end in
    mkTotals (t_total_support t - training_total)%Q tbp
             (t_total_after_sgk t - training_total)%Q training_total
  else t.

Definition compute_support (ci : CalculationInput) : result CalculationResult :=
  _ <- _validate_input ci ;;
  let supporter_start := olay_tarihi ci in
  cx <- prepare ci ;;
  let supporter_end := cx_supporter_end cx in
  let start_year := year supporter_start in
  let end_year := year supporter_end in
  rows <- rows_loop ci cx (Z_range start_year (end_year + 1)) ;;
  let total_support := Qsum (map present_value rows) in
  let total_by_person := person_totals rows in
  let psd := compute_sgk_psd ci in
  let total_after_sgk := after_sgk ci total_support psd in
  let t := training ci (mkTotals total_support total_by_person
                                 total_after_sgk 0) in
  let total_after_fault :=
    (t_total_after_sgk t * (1 - fault_rate ci / 100))%Q in
  Ok {| rows := rows;
        total_support := t_total_support t;
        total_by_person := t_total_by_person t;
        sgk_psd_deduction := psd;
        total_after_sgk := t_total_after_sgk t;
        total_after_fault := total_after_fault;
        training_total := t_training_total t;
        supporter_start := supporter_start;
        supporter_end := supporter_end;
        dependent_intervals := cx_dep_intervals cx;
        virtual_intervals := cx_virtual_intervals cx |}.

End Engine.

(* ================================================================== *)
(** * Vocabulary of the properties *)

(** ** Dates, wages and allowance *)

(** The order of dates as a proposition on the fields. *)
Definition date_lt (a b : date) : Prop :=
  year a < year b
  \/ (year a = year b
      /\ (month a < month b \/ (month a = month b /\ day a < day b))).

Local Open Scope Q_scope.

(** Net wage of the years before 2022, from the gross wage and the
    allowance. *)
Definition net_before_2022 (brut agi : Q) : Q :=
  round2 (brut - brut * (14 # 100) - brut * (1 # 100)
          - Qmax 0 ((brut - brut * (14 # 100) - brut * (1 # 100)) * (15 # 100) - agi)
          - brut * (759 # 100000)).




(** ** Runs and rows *)

(** The rows a list of loop outcomes leaves behind. *)
Definition emitted (rs : list (option YearRow)) : list YearRow :=
  flat_map (fun r => match r with Some row => [row] | None => [] end) rs.

(** The conditions checked by [_validate_input]. *)
Definition valid_input (ci : CalculationInput) : Prop :=
  date_ltb (hesap_tarihi ci) (olay_tarihi ci) = false
  /\ date_ltb (birth (destek ci)) (olay_tarihi ci) = true
  /\ 0 <= fault_rate ci <= 100
  /\ 0 <= report_discount_rate ci
  /\ 0 <= technical_interest ci.

Definition year_start_of (y : Z) : date := mkDate y 1 1.

Definition year_end_of (y : Z) : date := mkDate (y + 1) 1 1.

Definition days_of_year (y : Z) : Z :=
  date_diff_days (year_end_of y) (year_start_of y).

(** Days of year [y] within the supporter's interval. *)
Definition supporter_days (ci : CalculationInput) (s_end : date) (y : Z) : Z :=
  _overlap_days (olay_tarihi ci) s_end (year_start_of y) (year_end_of y).

(** The two tests of the loop body that do not [continue]. *)
Definition year_has_row (ci : CalculationInput) (s_end : date) (y : Z) : bool :=
  (0 <? supporter_days ci s_end y)%Z
  && match _yearly_support ci y with
     | Ok yearly_full => Qltb 0 yearly_full
     | Err _ => false
     end.

(** The rate selected by the method: the report rate under the progressive
    method, the technical interest otherwise (both in percent). *)
Definition selected_rate (ci : CalculationInput) : Q :=
  if use_progresif ci then report_discount_rate ci else technical_interest ci.

(** A compounding factor for the years after the valuation year, 1 for the
    others. *)
Definition discount_factor (ci : CalculationInput) (y : Z) : Q :=
  let k := (y - year (hesap_tarihi ci))%Z in
  if (0 <? k)%Z then 1 / Qpower (1 + selected_rate ci / 100) k else 1.

(** ** Names and intervals *)

Fixpoint nodupb (l : list string) : bool :=
  match l with
  | [] => true
  | x :: l' => negb (name_in x l') && nodupb l'
  end.

Definition dep_name (d : Dependent) : string := name (person d).

Definition dep_names (ci : CalculationInput) : list string :=
  map dep_name (dependents ci).

(** The keys the engine itself writes into the share dictionaries. *)
Definition reserved_names : list string :=
  ["destek"%string; VIRTUAL_SPOUSE; VIRTUAL_CHILD1; VIRTUAL_CHILD2].

(** The dependents' names are pairwise distinct and none of them is a
    reserved key: every party has a dictionary entry of its own. *)
Definition names_distinct (ci : CalculationInput) : bool :=
  nodupb (reserved_names ++ dep_names ci).







(** ** Shares *)

(** [sum(d.values())] *)
Definition vsum (d : sdict Q) : Q := Qsum (dict_values d).

Definition nonneg_values (d : sdict Q) : Prop := Forall (fun kv => 0 <= snd kv) d.

(** The part of the values held under the names [ps]. *)
Definition part_in (ps : list string) (d : sdict Q) : Q :=
  Qsum (map (fun kv => if name_in (fst kv) ps then snd kv else 0) d).

(** The part held under all other names. *)
Definition part_out (ps : list string) (d : sdict Q) : Q :=
  Qsum (map (fun kv => if name_in (fst kv) ps then 0 else snd kv) d).

(** [sum(d.get(p, 0.0) for p in ps)] *)
Definition lookup_sum (ps : list string) (d : sdict Q) : Q :=
  Qsum (map (fun p => sget_or d p 0) ps).

(** Multiplying the entries under the names [ks] by [s]. *)
Definition scale_in (ks : list string) (s : Q) (d : sdict Q) : sdict Q :=
  map (fun kv => (fst kv, if name_in (fst kv) ks then snd kv * s else snd kv)) d.

(** Distinct keys, no negative weight, a positive weight for the supporter. *)
Definition good_weights (npw : sdict Q) : Prop :=
  NoDup (dict_keys npw) /\ nonneg_values npw
  /\ 0 < sget_or npw "destek"%string 0.

(** [shares_amount] as first built: the non-parent total split by the
    normalised weights. *)
Definition split_pool (npt : Q) (npw : sdict Q) : sdict Q :=
  map (fun kv => (fst kv, npt * snd kv)) (Sharing.normalize_shares npw).

Definition base_weight (d : Dependent) : Q :=
  match dep_type d with
  | SPOUSE => 2
  | CHILD => 1
  | MOTHER | FATHER => if reduced_share d then 1 # 2 else 1
  | OTHER => 1
  end.

Definition parent_active (cx : context) (ys ye : date) (p : string) : bool :=
  match interval_of (cx_dep_intervals cx) p with
  | Some iv => negb (overlap_year ys ye iv <=? 0)%Z
  | None => false
  end.

Definition parent_weight (cx : context) (ys ye : date) (diy : Z) (p : string)
  : Q :=
  match interval_of (cx_dep_intervals cx) p with
  | Some iv => sget_or (cx_base cx) p 0 * day_fraction diy (overlap_year ys ye iv)
  | None => 0
  end.

(** The tolerance of the single-pool cap. *)
Definition cap_tolerance : Q := 1 # 1000000000.

(** The amount a row allocates to the parents (MOTHER / FATHER). *)
Definition parent_allocation (ci : CalculationInput) (row : YearRow) : Q :=
  lookup_sum (Sharing.parent_names ci) (shares row).



(** ** Totals *)

(** The input with another fault rate, all other fields kept. *)
Definition with_fault_rate (ci : CalculationInput) (f : Q) : CalculationInput :=
  {| olay_tarihi := olay_tarihi ci; hesap_tarihi := hesap_tarihi ci;
     destek := destek ci; income_mode := income_mode ci;
     monthly_income := monthly_income ci;
     regular_extra_income := regular_extra_income ci;
     life_table := life_table ci;
     active_start_age := active_start_age ci;
     active_end_age := active_end_age ci;
     passive_income_type := passive_income_type ci;
     passive_ratio := passive_ratio ci;
     child_support_age_male := child_support_age_male ci;
     child_support_age_female_non_student :=
       child_support_age_female_non_student ci;
     child_support_age_student := child_support_age_student ci;
     report_discount_rate := report_discount_rate ci;
     use_progresif := use_progresif ci;
     technical_interest := technical_interest ci;
     separate_parent_pool := separate_parent_pool ci;
     parent_share_cap_25_enabled := parent_share_cap_25_enabled ci;
     sgk_monthly_income := sgk_monthly_income ci;
     sgk_deduction_type := sgk_deduction_type ci;
     sgk_psd_factor := sgk_psd_factor ci;
     fault_rate := f;
     apply_ayim := apply_ayim ci;
     training_enabled := training_enabled ci;
     training_rate := training_rate ci;
     training_base_monthly := training_base_monthly ci;
     mother_working := mother_working ci;
     father_working := father_working ci;
     military_enabled := military_enabled ci;
     military_start_age := military_start_age ci;
     military_duration_months := military_duration_months ci;
     assume_marriage_if_single := assume_marriage_if_single ci;
     assumed_marriage_age := assumed_marriage_age ci;
     assumed_child1_after_years := assumed_child1_after_years ci;
     assumed_child2_after_years := assumed_child2_after_years ci;
     assumed_spouse_has_income := assumed_spouse_has_income ci;
     agi_use_family_status := agi_use_family_status ci;
     profile := profile ci;
     dependents := dependents ci |}.

(** The guard of the training-cost block of step 6. *)
Definition training_applies (ci : CalculationInput) : bool :=
  training_enabled ci
  && Qltb (_age_of (birth (destek ci)) (olay_tarihi ci)) 18.

(** ** Scenarios *)

(** No life-table file: [_load_table] builds its approximate table. *)
Definition no_csv : LifeTableType -> option (list (Z * Q * Q)) := fun _ => None.

(** A manual-income input with the dataclass defaults, but for the listed
    fields. *)
Definition scenario (olay hesap : date) (d : Person) (income : Q)
           (deps : list Dependent) (fault report_rate : Q)
           (training ayim separate : bool)
           (sgk_income : Q) (sgk_type : SGKDeductionType) : CalculationInput :=
  {| olay_tarihi := olay; hesap_tarihi := hesap; destek := d;
     income_mode := MANUAL; monthly_income := income;
     regular_extra_income := 0;
     life_table := TRH2010;
     active_start_age := 18; active_end_age := 60;
     passive_income_type := PASSIVE_MIN_WAGE; passive_ratio := 7 # 10;
     child_support_age_male := 18;
     child_support_age_female_non_student := 22;
     child_support_age_student := 25;
     report_discount_rate := report_rate; use_progresif := true;
     technical_interest := 18 # 10;
     separate_parent_pool := separate; parent_share_cap_25_enabled := true;
     sgk_monthly_income := sgk_income; sgk_deduction_type := sgk_type;
     sgk_psd_factor := 12;
     fault_rate := fault; apply_ayim := ayim;
     training_enabled := training; training_rate := 5 # 100;
     training_base_monthly := 0;
     mother_working := true; father_working := true;
     military_enabled := false; military_start_age := 20;
     military_duration_months := 12;
     assume_marriage_if_single := false; assumed_marriage_age := 25;
     assumed_child1_after_years := 2; assumed_child2_after_years := 4;
     assumed_spouse_has_income := false;
     agi_use_family_status := true;
     profile := EXPERT;
     dependents := deps |}.

Definition maktul : Person := mkPerson "Maktul" (mkDate 1985 1 1) MALE.

Definition elderly : Person := mkPerson "Maktul" (mkDate 1950 1 1) MALE.

Definition minor : Person := mkPerson "Maktul" (mkDate 2010 1 1) MALE.

Definition es : Dependent :=
  default_dependent (mkPerson "Es" (mkDate 1987 1 1) FEMALE) SPOUSE.

Definition anne : Dependent :=
  default_dependent (mkPerson "Anne" (mkDate 1955 1 1) FEMALE) MOTHER.

Definition baba : Dependent :=
  default_dependent (mkPerson "Baba" (mkDate 1980 1 1) MALE) FATHER.

(** An elderly supporter: four rows, 2024 to 2027, report rate 10%. *)
Definition elderly_input : CalculationInput :=
  scenario (mkDate 2024 1 1) (mkDate 2025 1 1) elderly 4000 [] 0 10
           false true true 0 NONE.

(** A ten-year-old supporter with an income of 4000 from the active age on. *)
Definition minor_input : CalculationInput :=
  scenario (mkDate 2020 1 1) (mkDate 2025 1 1) minor 4000 [] 0 0
           false true true 0 NONE.

(** The incident falls on a leap day. *)
Definition leap_day_input : CalculationInput :=
  scenario (mkDate 2020 2 29) (mkDate 2025 1 1) maktul 4000 [] 0 0
           false true true 0 NONE.

(** A ten-year-old supporter with a working father and the training cost
    enabled; the social-insurance income of 50000 a month is deducted in
    full (capital value 7 200 000, above the total support). The fault rate
    is left open. *)
Definition training_input (fault : Q) : CalculationInput :=
  scenario (mkDate 2020 1 1) (mkDate 2025 1 1) minor 4000 [baba] fault 0
           true true true 50000 FULL.

(** The row of a given year, if any. *)
Definition row_of (res : CalculationResult) (y : Z) : option YearRow :=
  find (fun r => (row_year r =? y)%Z) (rows res).

Definition young_es : Dependent :=
  default_dependent (mkPerson "Es" (mkDate 1990 1 1) FEMALE) SPOUSE.

Definition old_anne : Dependent :=
  default_dependent (mkPerson "Anne" (mkDate 1930 1 1) FEMALE) MOTHER.

Definition old_baba : Dependent :=
  default_dependent (mkPerson "Baba" (mkDate 1928 1 1) MALE) FATHER.

(** A child whose custom exit date (2023-06-01) precedes the incident. *)
Definition cocuk : Dependent :=
  mkDependent (mkPerson "Cocuk" (mkDate 2015 1 1) MALE) CHILD
              false false true false None (Some (mkDate 2023 6 1)).

(** The elderly supporter with a spouse aged 34, both parents and the child:
    the parents hold 2/7 of the base shares, above the cap. *)
Definition family_input (ayim separate : bool) : CalculationInput :=
  scenario (mkDate 2024 1 1) (mkDate 2025 1 1) elderly 4000
           [young_es; old_anne; old_baba; cocuk] 0 10 false ayim separate
           0 NONE.

(** The elderly supporter with the spouse and the mother only: the mother
    holds 1/5 of the base shares, below the cap. *)
Definition couple_input (ayim : bool) : CalculationInput :=
  scenario (mkDate 2024 1 1) (mkDate 2025 1 1) elderly 4000
           [young_es; old_anne] 0 10 false ayim true 0 NONE.

Local Close Scope Q_scope.
(* ================================================================== *)
(** * Properties *)

(** ** The date model on known values *)

Example ordinal_2020_02_29 : toordinal (mkDate 2020 2 29) = 737484.
Proof. reflexivity. Qed.

Example fromordinal_737484 : fromordinal 737484 = Ok (mkDate 2020 2 29).
Proof. reflexivity. Qed.

Example fromordinal_max : fromordinal MAXORDINAL = Ok (mkDate 9999 12 31).
Proof. reflexivity. Qed.

(** ** Order of dates *)

Lemma date_ltb_true (a b : date) : date_ltb a b = true <-> date_lt a b.
Proof.
  unfold date_ltb, date_lt.
  rewrite !orb_true_iff, !andb_true_iff, !orb_true_iff, !andb_true_iff,
    !Z.ltb_lt, !Z.eqb_eq.
  reflexivity.
Qed.

Lemma date_ltb_false (a b : date) : date_ltb a b = false <-> ~ date_lt a b.
Proof. rewrite <- date_ltb_true. now destruct (date_ltb a b). Qed.

(** Goals on the order of dates, by linear arithmetic on the fields. *)
Ltac date_order :=
  unfold date_leb in *;
  repeat match goal with
         | H : negb _ = true |- _ => apply negb_true_iff in H
         | H : negb _ = false |- _ => apply negb_false_iff in H
         | |- negb _ = true => apply negb_true_iff
         | |- negb _ = false => apply negb_false_iff
         end;
  repeat match goal with
         | H : date_ltb _ _ = true |- _ => apply date_ltb_true in H
         | H : date_ltb _ _ = false |- _ => apply date_ltb_false in H
         | |- date_ltb _ _ = true => apply date_ltb_true
         | |- date_ltb _ _ = false => apply date_ltb_false
         end;
  unfold date_lt in *; simpl in *; lia.

Lemma date_ltb_irrefl (a : date) : date_ltb a a = false.
Proof. date_order. Qed.

Lemma date_ltb_trans (a b c : date) :
  date_ltb a b = true -> date_ltb b c = true -> date_ltb a c = true.
Proof. intros H1 H2; date_order. Qed.

Lemma date_ltb_leb_trans (a b c : date) :
  date_ltb a b = true -> date_leb b c = true -> date_ltb a c = true.
Proof. intros H1 H2; date_order. Qed.

Lemma date_leb_refl (a : date) : date_leb a a = true.
Proof. unfold date_leb. now rewrite date_ltb_irrefl. Qed.

Lemma date_leb_antisym (a b : date) :
  date_leb a b = true -> date_leb b a = true -> a = b.
Proof.
  destruct a as [y1 m1 d1], b as [y2 m2 d2]; intros H1 H2.
  assert (y1 = y2 /\ m1 = m2 /\ d1 = d2) as (-> & -> & ->) by date_order.
  reflexivity.
Qed.



Lemma date_new_valid (y m d : Z) (dt : date) :
  date_new y m d = Ok dt -> valid_date dt /\ dt = mkDate y m d.
Proof.
  unfold date_new, valid_date. destruct (valid_dateb y m d) eqn:E; [|discriminate].
  intros [= <-]. auto.
Qed.

(** ** wages.py *)

Module WagesFacts.
Import Wages.
Local Open Scope Q_scope.

Lemma find_period_before (ps : list wage_period) (dt : date) :
  Forall (fun p => date_ltb dt (p_start p) = true) ps ->
  find_period ps dt = None.
Proof.
  induction 1 as [|p ps Hp _ IH]; simpl; [reflexivity|].
  unfold date_leb. now rewrite Hp.
Qed.

Lemma before_first_period (dt : date) :
  date_ltb dt (mkDate 2016 1 1) = true ->
  Forall (fun p => date_ltb dt (p_start p) = true) MIN_WAGE_PERIODS.
Proof.
  intros H. unfold MIN_WAGE_PERIODS, last_period.
  repeat constructor; simpl;
    (apply date_ltb_leb_trans with (1 := H); reflexivity).
Qed.

Lemma get_min_wage_gross_before_2016 (dt : date) :
  date_ltb dt (mkDate 2016 1 1) = true ->
  get_min_wage_gross dt = 2600550 # 100.
Proof.
  intros H. unfold get_min_wage_gross.
  rewrite find_period_before by (now apply before_first_period). reflexivity.
Qed.

(** C10. For every date before 2016-01-01, the first listed wage period,
    [get_min_wage_gross] returns the gross wage 26005.50 of the last
    (far-future) period; the family allowance of such a date (when its year
    is in the allowance window) and its net wage are computed from that
    wage. *)
Theorem C10_pre_2016_sentinel_wage (dt : date) :
  date_ltb dt (mkDate 2016 1 1) = true ->
  get_min_wage_gross dt = 2600550 # 100
  /\ (forall married spouse_has_income child_count,
         compute_agi dt married spouse_has_income child_count
         = if (year dt <? 2008)%Z then 0
           else round2 ((2600550 # 100)
                        * agi_oran married spouse_has_income child_count
                        * (15 # 100) / 12))
  /\ (forall use_agi married spouse_has_income child_count,
         get_min_wage_net dt use_agi married spouse_has_income child_count
         = net_before_2022 (2600550 # 100)
             (if use_agi
              then compute_agi dt married spouse_has_income child_count
              else 0)).
Proof.
  intros H.
  pose proof (get_min_wage_gross_before_2016 dt H) as Hg.
  assert (Hy : (year dt <= 2016)%Z) by date_order.
  repeat split.
  - exact Hg.
  - intros. unfold compute_agi. rewrite Hg.
    destruct (year dt <? 2008)%Z eqn:E1; [reflexivity|].
    destruct (year dt >=? 2022)%Z eqn:E2; [lia|]. reflexivity.
  - intros. unfold get_min_wage_net, net_before_2022. rewrite Hg.
    destruct (year dt >=? 2022)%Z eqn:E2; [lia|]. reflexivity.
Qed.

Lemma C10_witness :
  date_ltb (mkDate 2010 6 15) (mkDate 2016 1 1) = true
  /\ get_min_wage_gross (mkDate 2010 6 15) = 2600550 # 100.
Proof.
  split; [reflexivity|].
  apply (C10_pre_2016_sentinel_wage (mkDate 2010 6 15)). reflexivity.
Defined.

End WagesFacts.

(** ** Rounding respects equality of rationals *)

Local Open Scope Q_scope.


Lemma Qltb_lt (a b : Q) : Qltb a b = true <-> a < b.
Proof.
  unfold Qltb. rewrite negb_true_iff, <- not_true_iff_false, Qle_bool_iff.
  split; [apply Qnot_le_lt | apply Qlt_not_le].
Qed.

Lemma Qltb_ge (a b : Q) : Qltb a b = false <-> b <= a.
Proof. unfold Qltb. now rewrite negb_false_iff, Qle_bool_iff. Qed.



Module AgiFacts.
Import Wages WagesFacts.
Local Open Scope Q_scope.




End AgiFacts.

(** ** Unfolding a successful run *)

Lemma bind_Ok {A B : Type} (m : result A) (f : A -> result B) (b : B) :
  bind m f = Ok b -> exists a, m = Ok a /\ f a = Ok b.
Proof. destruct m as [a|e]; simpl; [eauto | discriminate]. Qed.

Ltac inv_bind H :=
  let a := fresh "a" in
  let Ha := fresh "Ha" in
  apply bind_Ok in H; destruct H as (a & Ha & H).

Lemma rows_loop_acc (ci : CalculationInput) (cx : context) (ys : list Z) :
  forall acc out,
    foldM (fun rows y =>
             r <- year_row ci cx y ;;
             match r with
             | Some row => Ok (rows ++ [row])
             | None => Ok rows
             end) ys acc = Ok out ->
    exists rs, Forall2 (fun y r => year_row ci cx y = Ok r) ys rs
               /\ out = acc ++ emitted rs.
Proof.
  induction ys as [|y ys IH]; simpl; intros acc out H.
  - injection H as <-. exists []. split; [constructor | now rewrite app_nil_r].
  - inv_bind H. inv_bind Ha.
    destruct a0 as [row|]; injection Ha as <-;
      destruct (IH _ _ H) as (rs & HF & ->).
    + exists (Some row :: rs). split; [now constructor|].
      simpl. now rewrite <- app_assoc.
    + exists (None :: rs). split; [now constructor | reflexivity].
Qed.

Lemma rows_loop_Ok (ci : CalculationInput) (cx : context) (ys : list Z)
      (out : list YearRow) :
  rows_loop ci cx ys = Ok out ->
  exists rs, Forall2 (fun y r => year_row ci cx y = Ok r) ys rs
             /\ out = emitted rs.
Proof. intros H. apply rows_loop_acc in H. exact H. Qed.

Lemma emitted_In (ys : list Z) (rs : list (option YearRow)) (P : Z -> option YearRow -> Prop)
      (row : YearRow) :
  Forall2 P ys rs -> In row (emitted rs) -> exists y, In y ys /\ P y (Some row).
Proof.
  induction 1 as [|y r ys rs Hy _ IH]; simpl; [tauto|].
  intros Hin. apply in_app_or in Hin. destruct Hin as [Hin|Hin].
  - destruct r as [row'|]; simpl in Hin; [|tauto].
    destruct Hin as [<-|[]]. eauto.
  - destruct (IH Hin) as (y' & ? & ?). eauto.
Qed.

Section EngineFacts.

Variable csv_rows : LifeTableType -> option (list (Z * Q * Q)).

Lemma compute_support_Ok (ci : CalculationInput) (res : CalculationResult) :
  compute_support csv_rows ci = Ok res ->
  exists cx,
    _validate_input ci = Ok tt
    /\ prepare csv_rows ci = Ok cx
    /\ rows_loop ci cx (Z_range (year (olay_tarihi ci))
                                (year (cx_supporter_end cx) + 1))
       = Ok (rows res)
    /\ supporter_end res = cx_supporter_end cx
    /\ dependent_intervals res = cx_dep_intervals cx
    /\ virtual_intervals res = cx_virtual_intervals cx.
Proof.
  unfold compute_support. intros H.
  inv_bind H. inv_bind H. inv_bind H.
  injection H as <-. simpl. destruct a. exists a0. auto 10.
Qed.

Lemma validate_input_Ok (ci : CalculationInput) :
  _validate_input ci = Ok tt <-> valid_input ci.
Proof.
  unfold _validate_input, valid_input.
  destruct (date_ltb (hesap_tarihi ci) (olay_tarihi ci));
    [split; [discriminate | intros (? & _); discriminate]|].
  destruct (date_ltb (birth (destek ci)) (olay_tarihi ci)); simpl;
    [|split; [discriminate | intros (_ & ? & _); discriminate]].
  destruct (Qle_bool 0 (fault_rate ci)) eqn:E1; simpl.
  2:{ split; [discriminate|]. intros (_ & _ & (H & _) & _).
      apply Qle_bool_iff in H. congruence. }
  destruct (Qle_bool (fault_rate ci) 100) eqn:E2; simpl.
  2:{ split; [discriminate|]. intros (_ & _ & (_ & H) & _).
      apply Qle_bool_iff in H. congruence. }
  destruct (Qltb (report_discount_rate ci) 0) eqn:E3.
  { split; [discriminate|]. intros (_ & _ & _ & H & _).
    apply Qltb_lt in E3. lra. }
  destruct (Qltb (technical_interest ci) 0) eqn:E4.
  { split; [discriminate|]. intros (_ & _ & _ & _ & H).
    apply Qltb_lt in E4. lra. }
  apply Qle_bool_iff in E1, E2. apply Qltb_ge in E3, E4. tauto.
Qed.

(** An input that breaks an invariant is refused with a validation error,
    before anything is computed. *)
Lemma invalid_input_refused (ci : CalculationInput) :
  ~ valid_input ci ->
  exists msg, compute_support csv_rows ci = Err (ValidationError msg).
Proof.
  intros H. rewrite <- validate_input_Ok in H. unfold compute_support.
  destruct (_validate_input ci) as [[]|e] eqn:E; [tauto|].
  simpl. revert E. unfold _validate_input.
  repeat match goal with
         | |- context [if ?c then _ else _] => destruct c
         end; intros [= <-]; eauto.
Qed.

(** ** The rows of a run *)

Lemma year_row_Some (ci : CalculationInput) (cx : context) (y : Z) (row : YearRow) :
  year_row ci cx y = Ok (Some row) ->
  valid_date (year_start_of y)
  /\ (0 < supporter_days ci (cx_supporter_end cx) y)%Z
  /\ exists yearly_full,
      _yearly_support ci y = Ok yearly_full
      /\ 0 < yearly_full
      /\ row_year row = y
      /\ gross_support row
         = yearly_full
           * day_fraction (days_of_year y)
                          (supporter_days ci (cx_supporter_end cx) y)
      /\ present_value row = present_value_of ci y (gross_support row)
      /\ shares row
         = year_shares ci cx y (year_start_of y) (year_end_of y)
                       (days_of_year y)
                       (day_fraction (days_of_year y)
                          (supporter_days ci (cx_supporter_end cx) y))
                       (present_value row).
Proof.
  unfold year_row. intros H.
  inv_bind H. inv_bind H.
  apply date_new_valid in Ha, Ha0.
  destruct Ha as (Hv & ->), Ha0 as (_ & ->).
  fold (year_start_of y) in *. fold (year_end_of y) in *.
  fold (days_of_year y) in *.
  fold (supporter_days ci (cx_supporter_end cx) y) in H.
  destruct (supporter_days ci (cx_supporter_end cx) y <=? 0)%Z eqn:E;
    [discriminate|].
  inv_bind H.
  destruct (Qle_bool a 0) eqn:E2; [discriminate|].
  inv_bind H. inv_bind H. injection H as <-. simpl.
  split; [exact Hv|]. split; [lia|].
  exists a. repeat split; try reflexivity; try assumption.
  apply Qltb_lt. unfold Qltb. now rewrite E2.
Qed.

Lemma year_row_None (ci : CalculationInput) (cx : context) (y : Z) :
  year_row ci cx y = Ok None ->
  (supporter_days ci (cx_supporter_end cx) y <= 0)%Z
  \/ exists yearly_full, _yearly_support ci y = Ok yearly_full
                         /\ yearly_full <= 0.
Proof.
  unfold year_row. intros H.
  inv_bind H. inv_bind H.
  apply date_new_valid in Ha, Ha0.
  destruct Ha as (Hv & ->), Ha0 as (_ & ->).
  fold (year_start_of y) in *. fold (year_end_of y) in *.
  fold (supporter_days ci (cx_supporter_end cx) y) in H.
  destruct (supporter_days ci (cx_supporter_end cx) y <=? 0)%Z eqn:E;
    [left; lia|].
  inv_bind H.
  destruct (Qle_bool a 0) eqn:E2.
  - right. exists a. split; [assumption|]. now apply Qle_bool_iff.
  - inv_bind H. inv_bind H. discriminate.
Qed.

(** Every row of a result comes from one year of the loop. *)
Lemma rows_from_years (ci : CalculationInput) (res : CalculationResult)
      (row : YearRow) :
  compute_support csv_rows ci = Ok res ->
  In row (rows res) ->
  exists cx, prepare csv_rows ci = Ok cx
             /\ _validate_input ci = Ok tt
             /\ year_row ci cx (row_year row) = Ok (Some row).
Proof.
  intros H Hin.
  destruct (compute_support_Ok _ H) as (cx & Hv & Hp & Hr & _).
  exists cx. split; [assumption|]. split; [assumption|].
  apply rows_loop_Ok in Hr. destruct Hr as (rs & HF & Hrows).
  rewrite Hrows in Hin.
  destruct (emitted_In _ HF Hin) as (y & _ & Hy).
  pose proof (year_row_Some _ _ _ Hy) as (_ & _ & yf & _ & _ & Hyr & _).
  now rewrite Hyr.
Qed.

(** ** C7: which years get a row *)

Lemma emitted_years (ci : CalculationInput) (cx : context) (ys : list Z)
      (rs : list (option YearRow)) :
  Forall2 (fun y r => year_row ci cx y = Ok r) ys rs ->
  map row_year (emitted rs) = filter (year_has_row ci (cx_supporter_end cx)) ys.
Proof.
  induction 1 as [|y r ys rs Hy _ IH]; simpl; [reflexivity|].
  rewrite map_app, IH. unfold year_has_row at 2.
  destruct r as [row|].
  - destruct (year_row_Some _ _ _ Hy) as (_ & Hd & yf & -> & Hyf & Hyr & _).
    apply Z.ltb_lt in Hd. apply Qltb_lt in Hyf. rewrite Hd, Hyf. simpl.
    now rewrite Hyr.
  - destruct (year_row_None _ _ _ Hy) as [Hd | (yf & -> & Hyf)].
    + apply Z.ltb_ge in Hd. now rewrite Hd.
    + apply Qltb_ge in Hyf. rewrite Hyf. now rewrite andb_false_r.
Qed.

Lemma Z_range_NoDup (lo hi : Z) : NoDup (Z_range lo hi).
Proof.
  unfold Z_range. apply Injective_map_NoDup; [|apply seq_NoDup].
  intros i j Hij. lia.
Qed.

(** C7, as the code has it. The rows of a result are, in increasing order
    and one per year, exactly the calendar years from the incident year to
    the year of the supporter's expected death in which the supporter's
    interval has a nonzero day overlap with the year AND the full-year
    support of that year is positive; a year whose yearly support is zero
    gets no row. *)
Theorem C7_rows_years (ci : CalculationInput) (res : CalculationResult) :
  compute_support csv_rows ci = Ok res ->
  map row_year (rows res)
  = filter (year_has_row ci (supporter_end res))
           (Z_range (year (olay_tarihi ci)) (year (supporter_end res) + 1))
  /\ NoDup (map row_year (rows res)).
Proof.
  intros H.
  destruct (compute_support_Ok _ H) as (cx & _ & _ & Hr & Hse & _).
  apply rows_loop_Ok in Hr. destruct Hr as (rs & HF & Hrows).
  assert (E : map row_year (rows res)
              = filter (year_has_row ci (supporter_end res))
                       (Z_range (year (olay_tarihi ci))
                                (year (supporter_end res) + 1))).
  { rewrite Hrows, Hse. now apply emitted_years. }
  split; [exact E|].
  rewrite E. apply NoDup_filter, Z_range_NoDup.
Qed.

(** ** C5: the present value of a row *)

Lemma present_value_of_factor (ci : CalculationInput) (y : Z) (gross : Q) :
  0 <= report_discount_rate ci ->
  0 <= technical_interest ci ->
  present_value_of ci y gross == gross * discount_factor ci y.
Proof.
  intros Hr Ht. unfold present_value_of, discount_factor.
  destruct (0 <? y - year (hesap_tarihi ci))%Z; [|ring].
  unfold discount_rate_of, selected_rate, Qpow.
  destruct (use_progresif ci); simpl.
  - destruct (Qltb 0 (report_discount_rate ci)) eqn:E.
    + assert (E' : Qltb 0 (report_discount_rate ci / 100) = true).
      { apply Qltb_lt. apply Qltb_lt in E.
        apply Qlt_shift_div_l; lra. }
      rewrite E'. reflexivity.
    + apply Qltb_ge in E.
      assert (E0 : report_discount_rate ci == 0) by lra.
      replace (Qltb 0 0) with false by reflexivity.
      rewrite E0.
      assert (E1 : 1 + 0 / 100 == 1) by reflexivity.
      rewrite E1, Qpower_1. field.
  - destruct (Qltb 0 (technical_interest ci)) eqn:E.
    + assert (E' : Qltb 0 (technical_interest ci / 100) = true).
      { apply Qltb_lt. apply Qltb_lt in E.
        apply Qlt_shift_div_l; lra. }
      rewrite E'. reflexivity.
    + apply Qltb_ge in E.
      assert (E0 : technical_interest ci == 0) by lra.
      replace (Qltb 0 0) with false by reflexivity.
      rewrite E0.
      assert (E1 : 1 + 0 / 100 == 1) by reflexivity.
      rewrite E1, Qpower_1. field.
Qed.

(** C5, as the code has it. In every row the present value is the gross
    support times a discount factor that is 1 up to the valuation year and,
    for a year k > 0 years after it, the compounding factor 1/(1+r)^k, where
    r is the report discount rate under the progressive method and the
    technical interest otherwise: both methods compound. *)
Theorem C5_present_value (ci : CalculationInput) (res : CalculationResult) :
  compute_support csv_rows ci = Ok res ->
  Forall (fun row =>
            present_value row
            == gross_support row * discount_factor ci (row_year row))
         (rows res).
Proof.
  intros H. apply Forall_forall. intros row Hin.
  destruct (rows_from_years _ _ H Hin) as (cx & _ & Hv & Hy).
  apply validate_input_Ok in Hv. destruct Hv as (_ & _ & _ & Hr & Ht).
  destruct (year_row_Some _ _ _ Hy) as (_ & _ & yf & _ & _ & _ & _ & -> & _).
  now apply present_value_of_factor.
Qed.

(** ** Sums of floats *)

Lemma Qsum_acc (l : list Q) (a : Q) : fold_left Qplus l a == a + Qsum l.
Proof.
  unfold Qsum. revert a. induction l as [|x l IH]; intros a; simpl.
  - ring.
  - rewrite IH, (IH (0 + x)). ring.
Qed.

Lemma Qsum_cons (x : Q) (l : list Q) : Qsum (x :: l) == x + Qsum l.
Proof. unfold Qsum at 1. simpl. rewrite Qsum_acc. ring. Qed.

Lemma Qsum_app (l1 l2 : list Q) : Qsum (l1 ++ l2) == Qsum l1 + Qsum l2.
Proof.
  induction l1 as [|x l1 IH]; simpl.
  - unfold Qsum at 2. simpl. ring.
  - rewrite !Qsum_cons, IH. ring.
Qed.

Lemma Qsum_nonneg (l : list Q) : Forall (fun x => 0 <= x) l -> 0 <= Qsum l.
Proof.
  induction 1 as [|x l Hx _ IH]; [unfold Qsum; simpl; lra|].
  rewrite Qsum_cons. lra.
Qed.

Lemma Qsum_map_ext {A : Type} (f g : A -> Q) (l : list A) :
  (forall a, In a l -> f a == g a) -> Qsum (map f l) == Qsum (map g l).
Proof.
  induction l as [|a l IH]; intros H; simpl; [reflexivity|].
  rewrite !Qsum_cons.
  rewrite (H a) by (simpl; auto).
  rewrite IH by (intros; apply H; simpl; auto). reflexivity.
Qed.

Lemma Qsum_map_scale {A : Type} (c : Q) (f : A -> Q) (l : list A) :
  Qsum (map (fun a => c * f a) l) == c * Qsum (map f l).
Proof.
  induction l as [|a l IH]; simpl; [unfold Qsum; simpl; ring|].
  rewrite !Qsum_cons, IH. ring.
Qed.

Lemma Qsum_map_plus {A : Type} (f g : A -> Q) (l : list A) :
  Qsum (map (fun a => f a + g a) l) == Qsum (map f l) + Qsum (map g l).
Proof.
  induction l as [|a l IH]; simpl; [unfold Qsum; simpl; ring|].
  rewrite !Qsum_cons, IH. ring.
Qed.

Lemma Qsum_map_zero {A : Type} (f : A -> Q) (l : list A) :
  (forall a, In a l -> f a == 0) -> Qsum (map f l) == 0.
Proof.
  induction l as [|a l IH]; intros H; simpl; [reflexivity|].
  rewrite Qsum_cons.
  rewrite (H a) by (simpl; auto).
  rewrite IH by (intros; apply H; simpl; auto). ring.
Qed.

(** ** Dictionaries keyed by names *)

Lemma name_in_In (k : string) (l : list string) : name_in k l = true <-> In k l.
Proof.
  unfold name_in. rewrite existsb_exists. split.
  - intros (x & Hin & E). apply String.eqb_eq in E. now subst.
  - intros Hin. exists k. split; [assumption | apply String.eqb_refl].
Qed.

Lemma name_in_not_In (k : string) (l : list string) :
  name_in k l = false <-> ~ In k l.
Proof. rewrite <- name_in_In. now destruct (name_in k l). Qed.

Lemma NoDup_snoc {A : Type} (l : list A) (a : A) :
  NoDup l -> ~ In a l -> NoDup (l ++ [a]).
Proof.
  induction 1 as [|x l Hx Hl IH]; simpl; intros Ha.
  - constructor; [tauto | constructor].
  - constructor.
    + rewrite in_app_iff. simpl. intuition (subst; auto).
    + apply IH. tauto.
Qed.

Section NameDict.
Variable V : Type.
Implicit Types (d : sdict V) (k : string) (v : V).

Lemma sget_None_keys d k : sget d k = None <-> ~ In k (dict_keys d).
Proof.
  unfold sget. induction d as [|[k' v'] d IH]; simpl; [tauto|].
  destruct (String.eqb_spec k k') as [->|Hne].
  - split; [discriminate | intros H; exfalso; auto].
  - rewrite IH. split; [intros H [E|Hin]; auto; congruence | tauto].
Qed.

Lemma sget_Some_keys d k v : sget d k = Some v -> In k (dict_keys d).
Proof.
  intros H. destruct (in_dec string_dec k (dict_keys d)) as [|Hn]; [assumption|].
  apply sget_None_keys in Hn. congruence.
Qed.

Lemma sget_In d k v : sget d k = Some v -> In (k, v) d.
Proof.
  unfold sget. induction d as [|[k' v'] d IH]; simpl; [discriminate|].
  destruct (String.eqb_spec k k') as [->|Hne].
  - intros [= ->]. auto.
  - auto.
Qed.

Lemma In_sget d k v : NoDup (dict_keys d) -> In (k, v) d -> sget d k = Some v.
Proof.
  unfold sget. induction d as [|[k' v'] d IH]; simpl; [tauto|].
  intros Hnd [E|Hin].
  - injection E as -> ->. now rewrite String.eqb_refl.
  - apply NoDup_cons_iff in Hnd. destruct Hnd as (Hk & Hnd).
    destruct (String.eqb_spec k k') as [->|Hne]; [|auto].
    exfalso. apply Hk. change k' with (fst (k', v)). now apply in_map.
Qed.

Lemma sget_sset_same d k v : sget (sset d k v) k = Some v.
Proof.
  unfold sget, sset. induction d as [|[k' v'] d IH]; simpl.
  - now rewrite String.eqb_refl.
  - destruct (String.eqb_spec k k') as [->|Hne]; simpl.
    + now rewrite String.eqb_refl.
    + destruct (String.eqb_spec k k'); [contradiction | assumption].
Qed.

Lemma sget_sset_other d k k' v : k' <> k -> sget (sset d k v) k' = sget d k'.
Proof.
  unfold sget, sset. intros Hne. induction d as [|[k0 v0] d IH]; simpl.
  - destruct (String.eqb_spec k' k); [contradiction | reflexivity].
  - destruct (String.eqb_spec k k0) as [->|Hne0]; simpl.
    + destruct (String.eqb_spec k' k0); [contradiction | reflexivity].
    + now rewrite IH.
Qed.

(** Writing an absent key appends it. *)
Lemma sset_fresh d k v : sget d k = None -> sset d k v = d ++ [(k, v)].
Proof.
  unfold sget, sset. induction d as [|[k' v'] d IH]; simpl; [reflexivity|].
  destruct (String.eqb_spec k k'); [discriminate|].
  intros H. now rewrite IH.
Qed.

(** Writing a present key keeps the keys. *)
Lemma sset_keys_present d k v :
  In k (dict_keys d) -> dict_keys (sset d k v) = dict_keys d.
Proof.
  unfold sset. induction d as [|[k' v'] d IH]; simpl; [tauto|].
  destruct (String.eqb_spec k k') as [->|Hne]; [reflexivity|].
  intros [E|Hin]; [congruence|]. simpl. now rewrite IH.
Qed.

Lemma sset_keys d k v :
  dict_keys (sset d k v)
  = if smem d k then dict_keys d else dict_keys d ++ [k].
Proof.
  unfold smem, dict_mem. fold (sget d k).
  destruct (sget d k) as [v0|] eqn:E.
  - apply sset_keys_present. eapply sget_Some_keys; eauto.
  - rewrite sset_fresh by assumption. unfold dict_keys.
    now rewrite map_app.
Qed.

Lemma sset_keys_In d k v k' :
  In k' (dict_keys (sset d k v)) <-> k' = k \/ In k' (dict_keys d).
Proof.
  rewrite sset_keys. unfold smem, dict_mem. fold (sget d k).
  destruct (sget d k) as [v0|] eqn:E.
  - split; [auto|]. intros [->|]; [|assumption].
    eapply sget_Some_keys; eauto.
  - rewrite in_app_iff. simpl. intuition.
Qed.

Lemma sset_keys_NoDup d k v :
  NoDup (dict_keys d) -> NoDup (dict_keys (sset d k v)).
Proof.
  intros H. rewrite sset_keys. unfold smem, dict_mem. fold (sget d k).
  destruct (sget d k) as [v0|] eqn:E; [assumption|].
  apply sget_None_keys in E.
  now apply NoDup_snoc.
Qed.

End NameDict.

Lemma sget_or_sset_same (d : sdict Q) (k : string) (v : Q) :
  sget_or (sset d k v) k 0 = v.
Proof.
  unfold sget_or, dict_get_or. fold (sget (sset d k v) k).
  now rewrite sget_sset_same.
Qed.

Lemma sget_or_sset_other (d : sdict Q) (k k' : string) (v : Q) :
  k' <> k -> sget_or (sset d k v) k' 0 = sget_or d k' 0.
Proof.
  intros H. unfold sget_or, dict_get_or.
  fold (sget (sset d k v) k'). fold (sget d k').
  now rewrite sget_sset_other.
Qed.

(** A write moves the sum of the values by the difference of the values. *)
Lemma vsum_sset (d : sdict Q) (k : string) (v : Q) :
  vsum (sset d k v) == vsum d - sget_or d k 0 + v.
Proof.
  unfold vsum, sget_or, dict_get_or, sset.
  induction d as [|[k' v'] d IH]; simpl.
  - unfold Qsum. simpl. ring.
  - destruct (String.eqb_spec k k') as [->|Hne]; simpl.
    + rewrite !Qsum_cons. ring.
    + rewrite !Qsum_cons, IH. ring.
Qed.

Lemma vsum_sadd (d : sdict Q) (k : string) (w : Q) :
  vsum (sadd d k w) == vsum d + w.
Proof. unfold sadd. rewrite vsum_sset. ring. Qed.

(** ** The preparation steps *)

Lemma prepare_Ok (ci : CalculationInput) (cx : context) :
  prepare csv_rows ci = Ok cx ->
  _expected_death_date csv_rows (birth (destek ci)) (gender (destek ci)) ci
  = Ok (cx_supporter_end cx)
  /\ dep_intervals_of csv_rows ci (cx_supporter_end cx)
     = Ok (cx_dep_intervals cx)
  /\ virtual_family ci (cx_supporter_end cx)
     = Ok (cx_virtual_intervals cx, cx_virtual_children_birth cx)
  /\ cx_base cx = Sharing.base_shares ci
  /\ cx_parents cx = Sharing.parent_names ci
  /\ cx_parent_fraction cx
     = parent_fraction_of (Sharing.base_shares ci) (Sharing.parent_names ci).
Proof.
  unfold prepare. intros H.
  inv_bind H. inv_bind H. inv_bind H. destruct a1 as [vi vcb].
  injection H as <-. simpl. auto 10.
Qed.




Lemma days_of_year_pos (y : Z) : (0 < days_of_year y)%Z.
Proof.
  unfold days_of_year, date_diff_days, toordinal, year_end_of, year_start_of,
    days_before_month, days_before_year.
  simpl. replace (y + 1 - 1)%Z with y by lia.
  Z.to_euclidean_division_equations. lia.
Qed.

Lemma day_fraction_pos (diy days : Z) :
  (0 < diy)%Z -> (0 < days)%Z -> 0 < day_fraction diy days.
Proof.
  intros H1 H2. unfold day_fraction.
  apply Qlt_shift_div_l.
  - change 0 with (inject_Z 0). now rewrite <- Zlt_Qlt.
  - rewrite Qmult_0_l. change 0 with (inject_Z 0). now rewrite <- Zlt_Qlt.
Qed.

Lemma discount_factor_pos (ci : CalculationInput) (y : Z) :
  0 <= report_discount_rate ci -> 0 <= technical_interest ci ->
  0 < discount_factor ci y.
Proof.
  intros Hr Ht. unfold discount_factor.
  destruct (0 <? y - year (hesap_tarihi ci))%Z; [|reflexivity].
  assert (Hs : 0 <= selected_rate ci)
    by (unfold selected_rate; now destruct (use_progresif ci)).
  assert (Hb : 0 < 1 + selected_rate ci / 100).
  { assert (0 <= selected_rate ci / 100)
      by (apply Qle_shift_div_l; [reflexivity | lra]).
    lra. }
  pose proof (Qpower_0_lt _ (y - year (hesap_tarihi ci)) Hb) as Hp.
  apply Qlt_shift_div_l; [assumption | lra].
Qed.

(** A row records a positive present value. *)
Lemma row_present_value_pos (ci : CalculationInput) (cx : context) (y : Z)
      (row : YearRow) :
  valid_input ci ->
  year_row ci cx y = Ok (Some row) ->
  0 < present_value row.
Proof.
  intros (_ & _ & _ & Hr & Ht) Hy.
  destruct (year_row_Some _ _ _ Hy)
    as (_ & Hd & yf & _ & Hyf & _ & Hg & Hpv & _).
  rewrite Hpv, present_value_of_factor by assumption.
  rewrite Hg.
  pose proof (day_fraction_pos (days_of_year_pos y) Hd) as Hf.
  pose proof (discount_factor_pos ci y Hr Ht) as Hk.
  apply Qmult_lt_0_compat; [apply Qmult_lt_0_compat|]; assumption.
Qed.

(** ** Party names *)

Lemma nodupb_NoDup (l : list string) : nodupb l = true -> NoDup l.
Proof.
  induction l as [|x l IH]; simpl; [constructor|].
  intros H. apply andb_prop in H. destruct H as (Hx & Hl).
  apply negb_true_iff, name_in_not_In in Hx. constructor; auto.
Qed.

Lemma NoDup_app_parts {A : Type} (l1 l2 : list A) :
  NoDup (l1 ++ l2) ->
  NoDup l2 /\ forall x, In x l1 -> ~ In x l2.
Proof.
  induction l1 as [|a l1 IH]; simpl; intros H; [tauto|].
  apply NoDup_cons_iff in H. destruct H as (Ha & H).
  destruct (IH H) as (H2 & H12). split; [assumption|].
  intros x [<-|Hx]; [|auto].
  intros Hin. apply Ha. apply in_or_app. now right.
Qed.

Lemma names_distinct_deps (ci : CalculationInput) :
  names_distinct ci = true -> NoDup (dep_names ci).
Proof.
  intros H. apply nodupb_NoDup in H. now apply NoDup_app_parts in H.
Qed.

Lemma names_distinct_reserved (ci : CalculationInput) (d : Dependent) :
  names_distinct ci = true -> In d (dependents ci) ->
  ~ In (dep_name d) reserved_names.
Proof.
  intros H Hd Hin. apply nodupb_NoDup in H.
  apply NoDup_app_parts in H. destruct H as (_ & H).
  apply (H _ Hin). now apply in_map.
Qed.


Lemma parent_names_In (ci : CalculationInput) (p : string) :
  In p (Sharing.parent_names ci) <->
  exists d, In d (dependents ci) /\ is_parent (dep_type d) = true
            /\ dep_name d = p.
Proof.
  unfold Sharing.parent_names. rewrite in_map_iff. split.
  - intros (d & E & Hd). apply filter_In in Hd. exists d. tauto.
  - intros (d & Hd & Ht & E). exists d. rewrite filter_In. tauto.
Qed.

Lemma NoDup_map_filter {A B : Type} (f : A -> B) (t : A -> bool) (l : list A) :
  NoDup (map f l) -> NoDup (map f (filter t l)).
Proof.
  induction l as [|a l IH]; simpl; [auto|].
  intros H. apply NoDup_cons_iff in H. destruct H as (Ha & Hl).
  destruct (t a); simpl; auto.
  constructor; auto. intros Hin. apply Ha.
  apply in_map_iff in Hin. destruct Hin as (x & E & Hx).
  apply filter_In in Hx. rewrite <- E. apply in_map. tauto.
Qed.

Lemma parent_names_NoDup (ci : CalculationInput) :
  NoDup (dep_names ci) -> NoDup (Sharing.parent_names ci).
Proof. apply NoDup_map_filter. Qed.

(** ** The dependents' intervals *)



(** ** The virtual family *)

Lemma virtual_child_keys (ci : CalculationInput) (s_end : date)
      (st st' : sdict interval * sdict date) (lb : string * date) (k : string) :
  virtual_child ci s_end st lb = Ok st' ->
  In k (dict_keys (fst st')) -> k = fst lb \/ In k (dict_keys (fst st)).
Proof.
  unfold virtual_child. destruct st as [vi vcb], lb as [label b].
  intros H. inv_bind H.
  destruct (date_ltb _ _); injection H as <-; simpl; [|auto].
  apply sset_keys_In.
Qed.

Lemma virtual_family_keys (ci : CalculationInput) (s_end : date)
      (vi : sdict interval) (vcb : sdict date) (k : string) :
  virtual_family ci s_end = Ok (vi, vcb) ->
  In k (dict_keys vi) ->
  In k [VIRTUAL_SPOUSE; VIRTUAL_CHILD1; VIRTUAL_CHILD2].
Proof.
  unfold virtual_family.
  destruct (assume_marriage_if_single ci && _);
    [|intros [= <- <-]; simpl; tauto].
  intros H. inv_bind H.
  destruct (date_ltb a s_end); [|injection H as <- <-; simpl; tauto].
  inv_bind H. inv_bind H. cbn [foldM] in H.
  inv_bind H. inv_bind H. injection H as E. intros Hin.
  assert (Hk : In k (dict_keys (fst a3))) by (now rewrite E).
  apply (virtual_child_keys _ _ _ _ _ Ha3) in Hk. simpl in Hk.
  destruct Hk as [->|Hk]; [simpl; auto|].
  apply (virtual_child_keys _ _ _ _ _ Ha2) in Hk. simpl in Hk.
  destruct Hk as [->|Hk]; [simpl; auto|].
  destruct (date_ltb _ _); simpl in Hk; [|tauto].
  destruct Hk as [<-|[]]. simpl. auto.
Qed.

(** ** Which keys a year's share dictionary can hold *)

Lemma fold_left_inv {A S : Type} (f : S -> A -> S) (I : S -> Prop)
      (l : list A) (s : S) :
  I s -> (forall s a, In a l -> I s -> I (f s a)) -> I (fold_left f l s).
Proof.
  revert s. induction l as [|a l IH]; simpl; intros s Hs Hf; [assumption|].
  apply IH; [apply Hf; auto | intros; apply Hf; auto].
Qed.


Lemma map_values_keys {V W : Type} (g : string * V -> W) (d : sdict V) :
  dict_keys (map (fun kv => (fst kv, g kv)) d) = dict_keys d.
Proof. unfold dict_keys. rewrite map_map. reflexivity. Qed.

Lemma normalize_shares_keys (sh : sdict Q) :
  dict_keys (Sharing.normalize_shares sh) = dict_keys sh.
Proof.
  unfold Sharing.normalize_shares, dict_keys.
  destruct (Qle_bool _ 0); rewrite map_map; apply map_ext; now intros [k v].
Qed.

Section YearFacts.

Variable ci : CalculationInput.
Variable cx : context.
Variable y : Z.
Variables ys ye : date.
Variable diy : Z.











End YearFacts.

(** ** C4: the eligibility interval of a dependent *)






(** ** Values of share dictionaries *)

Lemma sget_map_values {V W : Type} (g : V -> W) (d : sdict V) (k : string) :
  sget (map (fun kv => (fst kv, g (snd kv))) d) k = option_map g (sget d k).
Proof.
  unfold sget. induction d as [|[k' v'] d IH]; simpl; [reflexivity|].
  now destruct (String.eqb k k').
Qed.

Lemma sset_nonneg (d : sdict Q) (k : string) (v : Q) :
  nonneg_values d -> 0 <= v -> nonneg_values (sset d k v).
Proof.
  unfold nonneg_values, sset. intros H Hv.
  induction H as [|[k' v'] d Hk Hd IH]; simpl.
  - constructor; [assumption | constructor].
  - destruct (String.eqb k k'); constructor; simpl; assumption.
Qed.

Lemma sget_or_nonneg (d : sdict Q) (k : string) :
  nonneg_values d -> 0 <= sget_or d k 0.
Proof.
  unfold nonneg_values, sget_or, dict_get_or. fold (sget d k). intros H.
  destruct (sget d k) as [v|] eqn:E; [|lra].
  apply sget_In in E. rewrite Forall_forall in H. exact (H _ E).
Qed.

Lemma sadd_nonneg (d : sdict Q) (k : string) (w : Q) :
  nonneg_values d -> 0 <= w -> nonneg_values (sadd d k w).
Proof.
  intros H Hw. apply sset_nonneg; [assumption|].
  pose proof (sget_or_nonneg k H). lra.
Qed.

Lemma vsum_nonneg (d : sdict Q) : nonneg_values d -> 0 <= vsum d.
Proof.
  intros H. apply Qsum_nonneg. unfold dict_values.
  apply Forall_map. exact H.
Qed.

Lemma Qsum_ge_elem {A : Type} (f : A -> Q) (l : list A) (a : A) :
  (forall x, In x l -> 0 <= f x) -> In a l -> f a <= Qsum (map f l).
Proof.
  induction l as [|x l IH]; simpl; [tauto|].
  intros Hf Hin. rewrite Qsum_cons.
  assert (H0 : 0 <= Qsum (map f l)).
  { apply Qsum_nonneg, Forall_map, Forall_forall. auto. }
  destruct Hin as [->|Hin].
  - lra.
  - pose proof (Hf x (or_introl eq_refl)). specialize (IH (fun z Hz => Hf z (or_intror Hz)) Hin).
    lra.
Qed.

Lemma part_in_out (ps : list string) (d : sdict Q) :
  vsum d == part_in ps d + part_out ps d.
Proof.
  unfold vsum, part_in, part_out, dict_values.
  rewrite <- Qsum_map_plus. apply Qsum_map_ext.
  intros [k v] _. simpl. destruct (name_in k ps); ring.
Qed.

Lemma part_in_one (p : string) (d : sdict Q) :
  NoDup (dict_keys d) -> part_in [p] d == sget_or d p 0.
Proof.
  unfold part_in, sget_or, dict_get_or. fold (sget d p).
  induction d as [|[k v] d IH]; simpl; intros Hnd; [reflexivity|].
  apply NoDup_cons_iff in Hnd. destruct Hnd as (Hk & Hnd).
  rewrite Qsum_cons. unfold sget. simpl. fold (sget d p).
  rewrite (String.eqb_sym k p).
  destruct (String.eqb_spec p k) as [->|Hne]; simpl.
  - assert (E : sget d k = None) by (now apply sget_None_keys).
    rewrite IH, E by assumption. ring.
  - rewrite IH by assumption. ring.
Qed.

Lemma part_in_cons (p : string) (ps : list string) (d : sdict Q) :
  ~ In p ps -> part_in (p :: ps) d == part_in [p] d + part_in ps d.
Proof.
  intros Hp. unfold part_in. rewrite <- Qsum_map_plus.
  apply Qsum_map_ext. intros [k v] _. simpl.
  destruct (String.eqb_spec k p) as [->|Hne]; simpl.
  - apply name_in_not_In in Hp. rewrite Hp. ring.
  - destruct (name_in k ps); ring.
Qed.

(** Looking the names up one by one counts each entry once. *)
Lemma lookup_sum_part (ps : list string) (d : sdict Q) :
  NoDup ps -> NoDup (dict_keys d) -> lookup_sum ps d == part_in ps d.
Proof.
  intros Hps Hd. induction Hps as [|p ps Hp _ IH].
  - unfold lookup_sum, part_in. simpl. symmetry.
    apply Qsum_map_zero. reflexivity.
  - unfold lookup_sum in *. simpl. rewrite Qsum_cons, IH.
    rewrite part_in_cons by assumption.
    now rewrite part_in_one.
Qed.

Lemma part_in_nonneg (ps : list string) (d : sdict Q) :
  nonneg_values d -> 0 <= part_in ps d.
Proof.
  intros H. apply Qsum_nonneg, Forall_map.
  unfold nonneg_values in H. rewrite Forall_forall in *.
  intros kv Hkv. specialize (H kv Hkv). simpl.
  destruct (name_in (fst kv) ps); lra.
Qed.

Lemma part_out_nonneg (ps : list string) (d : sdict Q) :
  nonneg_values d -> 0 <= part_out ps d.
Proof.
  intros H. apply Qsum_nonneg, Forall_map.
  unfold nonneg_values in H. rewrite Forall_forall in *.
  intros kv Hkv. specialize (H kv Hkv). simpl.
  destruct (name_in (fst kv) ps); lra.
Qed.

(** Entries under other names are not seen by the part under [ps]: the part
    of a dictionary whose keys avoid [ps] is zero. *)
Lemma part_in_disjoint (ps : list string) (d : sdict Q) :
  (forall k, In k (dict_keys d) -> ~ In k ps) -> part_in ps d == 0.
Proof.
  intros H. apply Qsum_map_zero. intros [k v] Hkv. simpl.
  assert (Hk : ~ In k ps).
  { apply H. change k with (fst (k, v)). now apply in_map. }
  apply name_in_not_In in Hk. now rewrite Hk.
Qed.

Lemma part_in_all (ps : list string) (d : sdict Q) :
  (forall k, In k (dict_keys d) -> In k ps) -> part_in ps d == vsum d.
Proof.
  intros H. unfold part_in, vsum, dict_values. apply Qsum_map_ext.
  intros [k v] Hkv. simpl.
  assert (Hk : In k ps).
  { apply H. change k with (fst (k, v)). now apply in_map. }
  apply name_in_In in Hk. now rewrite Hk.
Qed.

Lemma scale_in_keys (ks : list string) (s : Q) (d : sdict Q) :
  dict_keys (scale_in ks s d) = dict_keys d.
Proof. unfold scale_in, dict_keys. now rewrite map_map. Qed.

Lemma scale_in_absent (ks : list string) (s : Q) (d : sdict Q) :
  (forall k, In k (dict_keys d) -> ~ In k ks) -> scale_in ks s d = d.
Proof.
  intros H. unfold scale_in. rewrite <- (map_id d) at 2.
  apply map_ext_in. intros [k v] Hkv. simpl.
  assert (Hk : ~ In k ks).
  { apply H. change k with (fst (k, v)). now apply in_map. }
  apply name_in_not_In in Hk. now rewrite Hk.
Qed.

Lemma scale_one_present (k : string) (s : Q) (d : sdict Q) :
  NoDup (dict_keys d) -> In k (dict_keys d) ->
  sset d k (sget_or d k 0 * s) = scale_in [k] s d.
Proof.
  unfold sset, sget_or, dict_get_or.
  induction d as [|[k' v'] d IH]; simpl; [tauto|].
  intros Hnd Hin. apply NoDup_cons_iff in Hnd. destruct Hnd as (Hk' & Hnd).
  rewrite (String.eqb_sym k' k).
  destruct (String.eqb_spec k k') as [->|Hne]; simpl.
  - f_equal. symmetry. apply scale_in_absent.
    intros k0 Hk0 [<-|[]]. contradiction.
  - f_equal. apply IH; [assumption|]. destruct Hin; congruence.
Qed.

Lemma scale_present_eq (k : string) (s : Q) (d : sdict Q) :
  NoDup (dict_keys d) -> scale_present s d k = scale_in [k] s d.
Proof.
  intros Hnd. unfold scale_present, smem, dict_mem. fold (sget d k).
  destruct (sget d k) as [v|] eqn:E.
  - apply scale_one_present; [assumption|]. eapply sget_Some_keys; eauto.
  - symmetry. apply scale_in_absent. apply sget_None_keys in E.
    intros k0 Hk0 [<-|[]]. contradiction.
Qed.

(** The loop [for p in ks: if p in d: d[p] *= s], for distinct names. *)
Lemma scale_fold (ks : list string) (s : Q) :
  NoDup ks ->
  forall d, NoDup (dict_keys d) ->
            fold_left (scale_present s) ks d = scale_in ks s d.
Proof.
  induction 1 as [|k ks Hk _ IH]; intros d Hd; simpl.
  - unfold scale_in. rewrite <- (map_id d) at 1.
    apply map_ext. now intros [k v].
  - rewrite scale_present_eq by assumption.
    rewrite IH by (now rewrite scale_in_keys).
    unfold scale_in. rewrite map_map. apply map_ext. intros [k0 v]. simpl.
    destruct (String.eqb_spec k0 k) as [->|Hne]; simpl; [|reflexivity].
    apply name_in_not_In in Hk. now rewrite Hk.
Qed.

(** The loop [for n in ks: d[n] *= s] over names that are keys. *)
Lemma scale_fold_present (ks : list string) (s : Q) :
  forall d, (forall k, In k ks -> In k (dict_keys d)) ->
            fold_left (scale_key s) ks d = fold_left (scale_present s) ks d.
Proof.
  induction ks as [|k ks IH]; intros d Hd; simpl; [reflexivity|].
  assert (Hk : In k (dict_keys d)) by (apply Hd; now left).
  assert (E : scale_present s d k = scale_key s d k).
  { unfold scale_present, scale_key, smem, dict_mem. fold (sget d k).
    destruct (sget d k) eqn:E; [reflexivity|].
    apply sget_None_keys in E. contradiction. }
  rewrite <- E, E. apply IH. intros k0 Hk0. unfold scale_key.
  rewrite sset_keys_present by assumption. apply Hd. now right.
Qed.

(** Writing distinct fresh names one after the other appends them. *)
Lemma build_fold (g : string -> Q) (l : list string) :
  NoDup l ->
  forall acc, (forall k, In k l -> ~ In k (dict_keys acc)) ->
              fold_left (fun pa p => sset pa p (g p)) l acc
              = acc ++ map (fun p => (p, g p)) l.
Proof.
  induction 1 as [|p l Hp _ IH]; intros acc Hacc; simpl.
  - now rewrite app_nil_r.
  - rewrite sset_fresh by (apply sget_None_keys, Hacc; now left).
    rewrite IH.
    + now rewrite <- app_assoc.
    + intros k Hk. unfold dict_keys. rewrite map_app, in_app_iff. simpl.
      intros [Hin|[<-|[]]]; [|contradiction].
      apply (Hacc k); [now right | assumption].
Qed.

Lemma vsum_app (d1 d2 : sdict Q) : vsum (d1 ++ d2) == vsum d1 + vsum d2.
Proof. unfold vsum, dict_values. rewrite map_app. apply Qsum_app. Qed.

Lemma vsum_map_pairs (g : string -> Q) (l : list string) :
  vsum (map (fun p => (p, g p)) l) == Qsum (map g l).
Proof. unfold vsum, dict_values. rewrite map_map. reflexivity. Qed.

Lemma vsum_scale_in (ks : list string) (s : Q) (d : sdict Q) :
  vsum (scale_in ks s d) == s * part_in ks d + part_out ks d.
Proof.
  unfold vsum, scale_in, dict_values, part_in, part_out.
  rewrite map_map. rewrite <- Qsum_map_scale, <- Qsum_map_plus.
  apply Qsum_map_ext. intros [k v] _. simpl.
  destruct (name_in k ks); ring.
Qed.

Lemma part_in_scale_in (ps ks : list string) (s : Q) (d : sdict Q) :
  (forall k, In k ks -> In k ps) ->
  part_in ps (scale_in ks s d)
  == s * part_in ks d + (part_in ps d - part_in ks d).
Proof.
  intros Hsub. unfold part_in, scale_in.
  rewrite map_map.
  assert (E : forall l : sdict Q,
             Qsum (map (fun kv => if name_in (fst kv) ps then snd kv else 0) l)
             - Qsum (map (fun kv => if name_in (fst kv) ks then snd kv else 0) l)
             == Qsum (map (fun kv => if name_in (fst kv) ps
                                     then (if name_in (fst kv) ks then 0
                                           else snd kv)
                                     else 0) l)).
  { induction l as [|[k v] l IH]; simpl; [reflexivity|].
    rewrite !Qsum_cons, <- IH.
    destruct (name_in k ks) eqn:E1; destruct (name_in k ps) eqn:E2; try ring.
    apply name_in_In in E1. apply Hsub in E1. apply name_in_In in E1.
    congruence. }
  rewrite E, <- Qsum_map_scale, <- Qsum_map_plus.
  apply Qsum_map_ext. intros [k v] _. simpl.
  destruct (name_in k ks) eqn:E1; destruct (name_in k ps) eqn:E2; try ring.
  apply name_in_In in E1. apply Hsub in E1. apply name_in_In in E1.
  congruence.
Qed.

Lemma part_in_scale_out (ps ks : list string) (s : Q) (d : sdict Q) :
  (forall k, In k ks -> ~ In k ps) ->
  part_in ps (scale_in ks s d) == part_in ps d.
Proof.
  intros Hdis. unfold part_in, scale_in. rewrite map_map.
  apply Qsum_map_ext. intros [k v] _. simpl.
  destruct (name_in k ps) eqn:E2; [|reflexivity].
  destruct (name_in k ks) eqn:E1; [|reflexivity].
  apply name_in_In in E1, E2. now apply Hdis in E1.
Qed.

(** ** The weights of a year and the split of the non-parent pool *)

Lemma sadd_good (npw : sdict Q) (k : string) (w : Q) :
  good_weights npw -> 0 <= w -> good_weights (sadd npw k w).
Proof.
  intros (Hnd & Hnn & Hd) Hw. repeat split.
  - now apply sset_keys_NoDup.
  - now apply sadd_nonneg.
  - unfold sadd. destruct (string_dec "destek" k) as [<-|Hne].
    + rewrite sget_or_sset_same. lra.
    + now rewrite sget_or_sset_other.
Qed.

Lemma good_weights_vsum (npw : sdict Q) :
  good_weights npw -> sget_or npw "destek"%string 0 <= vsum npw.
Proof.
  intros (Hnd & Hnn & _).
  rewrite <- part_in_one by assumption.
  rewrite (part_in_out ["destek"%string] npw).
  pose proof (part_out_nonneg ["destek"%string] Hnn). lra.
Qed.

Section Weights.

Variable ci : CalculationInput.
Variable cx : context.
Variables ys ye : date.
Variable diy : Z.
Hypothesis Hdiy : (0 < diy)%Z.

Lemma positive_days_fraction (days : Z) :
  (days <=? 0)%Z = false -> 0 <= day_fraction diy days.
Proof.
  intros H. apply Z.leb_gt in H. apply Qlt_le_weak.
  now apply day_fraction_pos.
Qed.

Lemma weigh_dependent_good (npw : sdict Q) (d : Dependent) :
  good_weights npw -> good_weights (weigh_dependent ci cx ys ye diy npw d).
Proof.
  intros H. unfold weigh_dependent.
  destruct (interval_of (cx_dep_intervals cx) (name (person d))) as [iv|];
    [|assumption].
  destruct (overlap_year ys ye iv <=? 0)%Z eqn:E; [assumption|].
  pose proof (positive_days_fraction _ E) as Hf.
  destruct (dep_type d); try destruct (negb (separate_parent_pool ci));
    try assumption; apply sadd_good; try assumption;
    try destruct (reduced_share d); lra.
Qed.

Lemma weigh_virtual_good (npw : sdict Q) (kv : string * interval) :
  good_weights npw -> good_weights (weigh_virtual ys ye diy npw kv).
Proof.
  intros H. unfold weigh_virtual. destruct kv as [vname iv].
  destruct (overlap_year ys ye iv <=? 0)%Z eqn:E; [assumption|].
  pose proof (positive_days_fraction _ E) as Hf.
  apply sadd_good; [assumption|].
  destruct (String.eqb vname VIRTUAL_SPOUSE); lra.
Qed.

Lemma non_parent_weights_good (fs : Q) :
  0 < fs -> good_weights (non_parent_weights ci cx ys ye diy fs).
Proof.
  intros Hfs. unfold non_parent_weights.
  apply fold_left_inv; [|intros; now apply weigh_virtual_good].
  apply fold_left_inv; [|intros; now apply weigh_dependent_good].
  repeat split.
  - simpl. constructor; [tauto | constructor].
  - constructor; [simpl; lra | constructor].
  - unfold sget_or, dict_get_or. simpl. lra.
Qed.

End Weights.

Lemma split_pool_eq (npt : Q) (npw : sdict Q) :
  0 < vsum npw ->
  split_pool npt npw
  = map (fun kv => (fst kv, npt * (snd kv / vsum npw))) npw.
Proof.
  intros H. unfold split_pool, Sharing.normalize_shares. fold (vsum npw).
  assert (E : Qle_bool (vsum npw) 0 = false).
  { apply not_true_iff_false. rewrite Qle_bool_iff. lra. }
  rewrite E, map_map. apply map_ext. now intros [k v].
Qed.

Lemma split_pool_keys (npt : Q) (npw : sdict Q) :
  dict_keys (split_pool npt npw) = dict_keys npw.
Proof.
  unfold split_pool. now rewrite map_values_keys, normalize_shares_keys.
Qed.

Lemma split_pool_good (npt : Q) (npw : sdict Q) :
  good_weights npw -> 0 <= npt ->
  vsum (split_pool npt npw) == npt
  /\ NoDup (dict_keys (split_pool npt npw))
  /\ nonneg_values (split_pool npt npw)
  /\ (0 < npt -> 0 < sget_or (split_pool npt npw) "destek"%string 0).
Proof.
  intros Hg Hnpt.
  pose proof (good_weights_vsum Hg) as Hle.
  destruct Hg as (Hnd & Hnn & Hd).
  assert (Ht : 0 < vsum npw) by lra.
  repeat split.
  - rewrite split_pool_eq by assumption.
    unfold vsum at 1. unfold dict_values. rewrite map_map. simpl.
    rewrite (Qsum_map_scale npt (fun kv => snd kv / vsum npw)).
    rewrite (@Qsum_map_ext _ (fun kv : string * Q => snd kv / vsum npw)
                           (fun kv => / vsum npw * snd kv))
      by (intros; cbv beta; field; lra).
    rewrite (Qsum_map_scale (/ vsum npw) (fun kv : string * Q => snd kv)).
    assert (E : Qsum (map (fun kv : string * Q => snd kv) npw) == vsum npw)
      by reflexivity.
    rewrite E. field. lra.
  - now rewrite split_pool_keys.
  - rewrite split_pool_eq by assumption.
    unfold nonneg_values in *. apply Forall_map.
    rewrite Forall_forall in *. intros kv Hkv. simpl.
    specialize (Hnn kv Hkv).
    apply Qmult_le_0_compat; [assumption|].
    apply Qle_shift_div_l; lra.
  - intros Hpos. rewrite split_pool_eq by assumption.
    unfold sget_or, dict_get_or in *.
    fold (sget npw "destek") in Hd.
    change (dict_get String.eqb ?d ?k) with (sget d k).
    rewrite (sget_map_values (fun v => npt * (v / vsum npw))).
    destruct (sget npw "destek") as [v|]; simpl; [|lra].
    apply Qmult_lt_0_compat; [assumption|].
    apply Qlt_shift_div_l; lra.
Qed.

(** ** Base shares and the parents' fraction *)

Lemma fold_left_same {A S : Type} (f g : S -> A -> S) (l : list A) (s : S) :
  (forall s a, f s a = g s a) -> fold_left f l s = fold_left g l s.
Proof.
  intros H. revert s. induction l as [|a l IH]; simpl; intros s; [reflexivity|].
  now rewrite H, IH.
Qed.

Lemma base_shares_fold (ci : CalculationInput) :
  Sharing.base_shares ci
  = fold_left (fun sh d => sset sh (dep_name d) (base_weight d))
              (dependents ci) [("destek"%string, 2)].
Proof.
  unfold Sharing.base_shares. apply fold_left_same.
  intros sh d. unfold base_weight, dep_name. now destruct (dep_type d).
Qed.

Lemma base_weight_half (d : Dependent) : 1 # 2 <= base_weight d.
Proof.
  unfold base_weight.
  destruct (dep_type d); try destruct (reduced_share d); lra.
Qed.

Lemma sset_Forall_values (P : Q -> Prop) (d : sdict Q) (k : string) (v : Q) :
  Forall (fun kv => P (snd kv)) d -> P v ->
  Forall (fun kv => P (snd kv)) (sset d k v).
Proof.
  unfold sset. intros H Hv.
  induction H as [|[k' v'] d Hk Hd IH]; simpl.
  - constructor; [assumption | constructor].
  - destruct (String.eqb k k'); constructor; simpl; assumption.
Qed.

Lemma base_shares_good (ci : CalculationInput) :
  NoDup (dict_keys (Sharing.base_shares ci))
  /\ Forall (fun kv => 1 # 2 <= snd kv) (Sharing.base_shares ci).
Proof.
  rewrite base_shares_fold.
  apply fold_left_inv with
    (I := fun sh => NoDup (dict_keys sh)
                    /\ Forall (fun kv => 1 # 2 <= snd kv) sh).
  - split.
    + simpl. constructor; [tauto | constructor].
    + constructor; [simpl; lra | constructor].
  - intros sh d _ (H1 & H2). split.
    + now apply sset_keys_NoDup.
    + apply (sset_Forall_values (fun v => 1 # 2 <= v)); [assumption|].
      apply base_weight_half.
Qed.

Lemma base_shares_has (ci : CalculationInput) (d : Dependent) :
  In d (dependents ci) -> In (dep_name d) (dict_keys (Sharing.base_shares ci)).
Proof.
  rewrite base_shares_fold.
  generalize [("destek"%string, 2)] as acc.
  induction (dependents ci) as [|d0 ds IH]; simpl; [tauto|].
  intros acc [->|Hin]; [|auto].
  apply fold_left_inv with (I := fun sh => In (dep_name d) (dict_keys sh)).
  - apply sset_keys_In. now left.
  - intros sh d' _ H. apply sset_keys_In. now right.
Qed.

Lemma base_share_pos (ci : CalculationInput) (p : string) :
  In p (Sharing.parent_names ci) -> 0 < sget_or (Sharing.base_shares ci) p 0.
Proof.
  intros Hp. apply parent_names_In in Hp. destruct Hp as (d & Hd & _ & <-).
  pose proof (base_shares_has _ _ Hd) as Hk.
  destruct (base_shares_good ci) as (_ & Hh).
  unfold sget_or, dict_get_or. fold (sget (Sharing.base_shares ci) (dep_name d)).
  destruct (sget (Sharing.base_shares ci) (dep_name d)) as [v|] eqn:E.
  - apply sget_In in E. rewrite Forall_forall in Hh.
    specialize (Hh _ E). simpl in Hh. lra.
  - apply sget_None_keys in E. contradiction.
Qed.

Lemma base_shares_nonneg (ci : CalculationInput) :
  nonneg_values (Sharing.base_shares ci).
Proof.
  destruct (base_shares_good ci) as (_ & Hh). unfold nonneg_values.
  rewrite Forall_forall in *. intros kv Hkv. specialize (Hh kv Hkv). lra.
Qed.

(** With distinct names the parents hold a part of the base shares. *)
Lemma parent_fraction_bounds (ci : CalculationInput) :
  names_distinct ci = true ->
  0 <= parent_fraction_of (Sharing.base_shares ci) (Sharing.parent_names ci) <= 1.
Proof.
  intros Hn. unfold parent_fraction_of.
  fold (vsum (Sharing.base_shares ci)).
  fold (lookup_sum (Sharing.parent_names ci) (Sharing.base_shares ci)).
  destruct (Qltb 0 (vsum _)) eqn:E1; simpl; [|lra].
  destruct (Qltb 0 (lookup_sum _ _)) eqn:E2; [|lra].
  apply Qltb_lt in E1, E2.
  assert (Hle : lookup_sum (Sharing.parent_names ci) (Sharing.base_shares ci)
                <= vsum (Sharing.base_shares ci)).
  { rewrite lookup_sum_part.
    - rewrite (part_in_out (Sharing.parent_names ci) (Sharing.base_shares ci)).
      pose proof (part_out_nonneg (Sharing.parent_names ci)
                                  (base_shares_nonneg ci)).
      lra.
    - apply parent_names_NoDup. now apply names_distinct_deps.
    - apply base_shares_good. }
  split.
  - apply Qle_shift_div_l; lra.
  - apply Qle_shift_div_r; lra.
Qed.

(** ** The separate parent pool of a year *)

Section ParentPool.

Variable ci : CalculationInput.
Variable cx : context.
Variables ys ye : date.
Variable diy : Z.
Hypothesis Hdiy : (0 < diy)%Z.
Hypothesis Hnames : names_distinct ci = true.
Hypothesis Hbase : cx_base cx = Sharing.base_shares ci.
Hypothesis Hparents : cx_parents cx = Sharing.parent_names ci.
Hypothesis Hfraction :
  cx_parent_fraction cx
  = parent_fraction_of (Sharing.base_shares ci) (Sharing.parent_names ci).

Lemma scan_parent_step (act : list string) (pw : sdict Q) (p : string) :
  ~ In p (dict_keys pw) ->
  scan_parent cx ys ye diy (act, pw) p
  = if (parent_active cx ys ye) p
    then (act ++ [p], pw ++ [(p, (parent_weight cx ys ye diy) p)])
    else (act, pw).
Proof.
  intros Hp. unfold scan_parent, parent_active, parent_weight.
  destruct (interval_of (cx_dep_intervals cx) p) as [iv|]; [|reflexivity].
  destruct (overlap_year ys ye iv <=? 0)%Z; simpl; [reflexivity|].
  now rewrite sset_fresh by (now apply sget_None_keys).
Qed.

Lemma scan_fold (ps : list string) :
  NoDup ps ->
  forall (act : list string) (pw : sdict Q),
    (forall p, In p ps -> ~ In p (dict_keys pw)) ->
    fold_left (scan_parent cx ys ye diy) ps (act, pw)
    = (act ++ filter (parent_active cx ys ye) ps,
       pw ++ map (fun p => (p, (parent_weight cx ys ye diy) p)) (filter (parent_active cx ys ye) ps)).
Proof.
  induction 1 as [|p ps Hp Hnd IH]; intros act pw Hpw.
  - simpl. now rewrite !app_nil_r.
  - cbn [fold_left filter].
    rewrite scan_parent_step by (apply Hpw; now left).
    destruct ((parent_active cx ys ye) p).
    + rewrite IH.
      * cbn [map]. now rewrite <- !app_assoc.
      * intros q Hq. unfold dict_keys. rewrite map_app, in_app_iff. simpl.
        intros [Hin|[<-|[]]]; [|contradiction].
        apply (Hpw q); [now right | assumption].
    + apply IH. intros q Hq. apply Hpw. now right.
Qed.

Lemma parent_weight_pos (p : string) :
  In p (cx_parents cx) -> (parent_active cx ys ye) p = true -> 0 < (parent_weight cx ys ye diy) p.
Proof.
  unfold parent_active, parent_weight. intros Hp.
  destruct (interval_of (cx_dep_intervals cx) p) as [iv|]; [|discriminate].
  intros H. apply negb_true_iff, Z.leb_gt in H.
  apply Qmult_lt_0_compat.
  - rewrite Hbase. apply base_share_pos. now rewrite <- Hparents.
  - now apply day_fraction_pos.
Qed.

Lemma or_one_pos (s : Q) : 0 < s -> or_one s = s.
Proof.
  intros H. unfold or_one.
  destruct (Qeq_bool s 0) eqn:E; [|reflexivity].
  apply Qeq_bool_iff in E. lra.
Qed.

(** The parents' amounts add up to the parents' total, which lies between 0
    and the present value, is 0 in the single-pool mode, and is at most a
    quarter of the present value when the cap is enabled and a spouse or
    child is active. *)
Lemma parent_pool_values (pv : Q) :
  0 < pv ->
  0 <= snd (parent_pool ci cx ys ye diy pv) <= pv
  /\ vsum (fst (parent_pool ci cx ys ye diy pv))
     == snd (parent_pool ci cx ys ye diy pv)
  /\ NoDup (dict_keys (fst (parent_pool ci cx ys ye diy pv)))
  /\ (separate_parent_pool ci = false ->
      parent_pool ci cx ys ye diy pv = ([], 0))
  /\ (parent_share_cap_25_enabled ci = true ->
      has_spouse_or_child ci cx ys ye = true ->
      snd (parent_pool ci cx ys ye diy pv) <= pv * (25 # 100)).
Proof.
  intros Hpv.
  assert (Htriv : 0 <= 0 <= pv /\ vsum [] == 0 /\ NoDup (@nil string)
                  /\ 0 <= pv * (25 # 100)).
  { repeat split; try lra; try reflexivity; constructor. }
  unfold parent_pool.
  destruct (separate_parent_pool ci); [|simpl; intuition].
  assert (Hnd : NoDup (cx_parents cx)).
  { rewrite Hparents. apply parent_names_NoDup. now apply names_distinct_deps. }
  destruct (fold_left (scan_parent cx ys ye diy) (cx_parents cx) ([], []))
    as [act pw0] eqn:Escan.
  assert (Escan' : (act, pw0)
                   = (filter (parent_active cx ys ye) (cx_parents cx),
                      map (fun p => (p, (parent_weight cx ys ye diy) p))
                          (filter (parent_active cx ys ye) (cx_parents cx)))).
  { refine (eq_trans (eq_sym Escan) (scan_fold Hnd [] [] _)). simpl. tauto. }
  injection Escan' as -> ->. clear Escan.
  pose proof (fun p (H : In p (filter (parent_active cx ys ye) (cx_parents cx))) =>
                parent_weight_pos p (proj1 (proj1 (filter_In _ _ _) H))
                                  (proj2 (proj1 (filter_In _ _ _) H))) as Hw.
  pose proof (NoDup_filter (parent_active cx ys ye) Hnd) as HndA.
  destruct (filter (parent_active cx ys ye) (cx_parents cx)) as [|p0 A] eqn:EA;
    [simpl; intuition; discriminate|].
  destruct (Qltb 0 (cx_parent_fraction cx)) eqn:Ef;
    [|simpl; intuition; discriminate].
  apply Qltb_lt in Ef.
  pose proof (parent_fraction_bounds ci Hnames) as Hpf.
  rewrite <- Hfraction in Hpf.
  set (T0 := pv * cx_parent_fraction cx).
  assert (HT0 : 0 <= T0 <= pv) by (unfold T0; split; nra).
  set (T := if parent_share_cap_25_enabled ci && has_spouse_or_child ci cx ys ye
            then if Qltb (pv * (25 # 100)) T0 then pv * (25 # 100) else T0
            else T0).
  assert (HT : 0 <= T <= pv).
  { unfold T. destruct (_ && _); [|assumption].
    destruct (Qltb (pv * (25 # 100)) T0); lra. }
  assert (Hcap : parent_share_cap_25_enabled ci = true ->
                 has_spouse_or_child ci cx ys ye = true ->
                 T <= pv * (25 # 100)).
  { intros H1 H2. unfold T. rewrite H1, H2. simpl.
    destruct (Qltb (pv * (25 # 100)) T0) eqn:E; [lra|].
    now apply Qltb_ge in E. }
  destruct A as [|p1 A].
  - cbn [fst snd]. split; [exact HT|]. split; [|split; [|split]].
    + unfold vsum, Qsum. simpl. ring.
    + simpl. constructor; [tauto | constructor].
    + discriminate.
    + exact Hcap.
  - cbn [fst snd].
    assert (Hp0 : In p0 (p0 :: p1 :: A)) by (now left).
    set (A2 := p0 :: p1 :: A) in *.
    set (pw := map (fun p => (p, (parent_weight cx ys ye diy) p)) A2).
    set (wsum := or_one (Qsum (dict_values pw))).
    rewrite (build_fold (fun p => T * (sget_or pw p 0 / wsum)) HndA [])
      by (simpl; tauto).
    cbn [app].
    assert (Hkeys : dict_keys pw = A2).
    { unfold pw, dict_keys. rewrite map_map. simpl. now rewrite map_id. }
    assert (Hsum : lookup_sum A2 pw == vsum pw).
    { rewrite lookup_sum_part by (rewrite ?Hkeys; assumption).
      apply part_in_all. now rewrite Hkeys. }
    assert (Hpos : 0 < vsum pw).
    { unfold pw. rewrite vsum_map_pairs.
      apply Qlt_le_trans with ((parent_weight cx ys ye diy) p0); [now apply Hw|].
      apply (Qsum_ge_elem (parent_weight cx ys ye diy)); [|assumption].
      intros x Hx. apply Qlt_le_weak. now apply Hw. }
    assert (Hws : wsum = vsum pw) by (now apply or_one_pos).
    split; [exact HT|]. split; [|split; [|split]];
      [| |discriminate|exact Hcap].
    + rewrite vsum_map_pairs.
      rewrite (@Qsum_map_ext _ (fun p => T * (sget_or pw p 0 / wsum))
                             (fun p => (T / wsum) * sget_or pw p 0))
        by (intros; cbv beta; field; rewrite Hws; lra).
      rewrite (Qsum_map_scale (T / wsum) (fun p => sget_or pw p 0)).
      fold (lookup_sum A2 pw). rewrite Hsum, Hws.
      field. lra.
    + unfold dict_keys. rewrite map_map. simpl. rewrite map_id. exact HndA.
Qed.

End ParentPool.

(** ** The single-pool cap, the parents' amounts and the remarriage discount *)

Lemma vsum_nil : vsum [] == 0.
Proof. reflexivity. Qed.

Lemma vsum_cons (k : string) (v : Q) (d : sdict Q) :
  vsum ((k, v) :: d) == v + vsum d.
Proof. unfold vsum, dict_values. simpl. apply Qsum_cons. Qed.



Lemma add_parent_amounts_vsum (pa sa : sdict Q) :
  vsum (add_parent_amounts pa sa) == vsum sa + vsum pa.
Proof.
  unfold add_parent_amounts. revert sa.
  induction pa as [|[k v] pa IH]; intros sa; cbn [fold_left fst snd].
  - rewrite vsum_nil. ring.
  - rewrite IH, vsum_sadd, vsum_cons. ring.
Qed.


Section YearShares.

Variable ci : CalculationInput.
Variable cx : context.
Variable y : Z.
Variables ys ye : date.
Variable diy : Z.
Hypothesis Hdiy : (0 < diy)%Z.
Hypothesis Hnames : names_distinct ci = true.
Hypothesis Hbase : cx_base cx = Sharing.base_shares ci.
Hypothesis Hparents : cx_parents cx = Sharing.parent_names ci.
Hypothesis Hfraction :
  cx_parent_fraction cx
  = parent_fraction_of (Sharing.base_shares ci) (Sharing.parent_names ci).
Hypothesis Hvirtual :
  forall k, In k (dict_keys (cx_virtual_intervals cx)) ->
            In k [VIRTUAL_SPOUSE; VIRTUAL_CHILD1; VIRTUAL_CHILD2].

Lemma parents_NoDup : NoDup (cx_parents cx).
Proof.
  rewrite Hparents. apply parent_names_NoDup. now apply names_distinct_deps.
Qed.

Lemma parent_not_reserved (p : string) :
  In p (cx_parents cx) -> ~ In p reserved_names.
Proof.
  rewrite Hparents. intros Hp. apply parent_names_In in Hp.
  destruct Hp as (d & Hd & _ & <-). now apply (@names_distinct_reserved ci).
Qed.



(** The single-pool cap keeps the sum of the shares and brings the parents'
    part down to a quarter of the present value, up to the tolerance. *)
Lemma cap_single_pool_values (pv : Q) (sa : sdict Q) :
  0 < pv ->
  NoDup (dict_keys sa) -> nonneg_values sa -> vsum sa == pv ->
  0 < sget_or sa "destek"%string 0 ->
  separate_parent_pool ci = false ->
  vsum (cap_single_pool ci cx pv sa) == pv
  /\ (parent_share_cap_25_enabled ci = true ->
      lookup_sum (cx_parents cx) (cap_single_pool ci cx pv sa)
      <= pv * (25 # 100) + cap_tolerance).
Proof.
  intros Hpv Hnd Hnn Hsum Hdestek Hsep.
  unfold cap_single_pool. rewrite Hsep. simpl negb. cbn [andb].
  destruct (parent_share_cap_25_enabled ci); [|split; [assumption|discriminate]].
  set (parents := cx_parents cx).
  set (others := filter (fun n => negb (name_in n parents)) (dict_keys sa)).
  fold (lookup_sum parents sa). fold (lookup_sum others sa).
  pose proof parents_NoDup as Hpnd. fold parents in Hpnd.
  assert (Hond : NoDup others) by (now apply NoDup_filter).
  assert (HP : lookup_sum parents sa == part_in parents sa)
    by (now apply lookup_sum_part).
  assert (HO : lookup_sum others sa == part_out parents sa).
  { rewrite lookup_sum_part by assumption.
    unfold part_in, part_out. apply Qsum_map_ext. intros [k v] Hkv. simpl.
    assert (Hk : In k (dict_keys sa)).
    { change k with (fst (k, v)). now apply in_map. }
    destruct (name_in k parents) eqn:E.
    - assert (E' : name_in k others = false).
      { apply name_in_not_In. unfold others. rewrite filter_In.
        rewrite E. simpl. intros (_ & ?). discriminate. }
      now rewrite E'.
    - assert (E' : name_in k others = true).
      { apply name_in_In. unfold others. rewrite filter_In.
        rewrite E. auto. }
      now rewrite E'. }
  pose proof (part_in_out parents sa) as Hsplit.
  pose proof (part_in_nonneg parents Hnn) as HP0.
  assert (HOpos : 0 < part_out parents sa).
  { apply Qlt_le_trans with (sget_or sa "destek" 0); [assumption|].
    rewrite <- part_in_one by assumption.
    unfold part_in, part_out.
    assert (Hle : forall l : sdict Q,
               nonneg_values l ->
               Qsum (map (fun kv => if name_in (fst kv) ["destek"%string]
                                    then snd kv else 0) l)
               <= Qsum (map (fun kv => if name_in (fst kv) parents
                                       then 0 else snd kv) l)).
    { induction 1 as [|[k v] l Hv _ IH]; cbn [map fst snd].
      - unfold Qsum. simpl. lra.
      - rewrite !Qsum_cons. cbn [fst snd] in Hv.
        assert (Hn : name_in k ["destek"%string] = String.eqb k "destek")
          by (unfold name_in; simpl; now rewrite orb_false_r).
        rewrite Hn.
        destruct (String.eqb_spec k "destek") as [->|Hne].
        + assert (E : name_in "destek" parents = false).
          { apply name_in_not_In. intros Hin.
            apply (@parent_not_reserved _ Hin). unfold reserved_names.
            simpl. auto. }
          rewrite E. lra.
        + destruct (name_in k parents); lra. }
    now apply Hle. }
  destruct (Qltb 0 (lookup_sum parents sa)) eqn:E1; simpl.
  2:{ split; [assumption|]. intros _. apply Qltb_ge in E1.
      unfold cap_tolerance. lra. }
  assert (E2 : Qltb 0 (lookup_sum others sa) = true).
  { apply Qltb_lt. rewrite HO. assumption. }
  rewrite E2. apply Qltb_lt in E1.
  destruct (Qltb (pv * (25 # 100) + (1 # 1000000000)) (lookup_sum parents sa))
    eqn:E3.
  2:{ split; [assumption|]. intros _. apply Qltb_ge in E3.
      unfold cap_tolerance. exact E3. }
  set (sp := pv * (25 # 100) / lookup_sum parents sa).
  set (so := (pv - pv * (25 # 100)) / lookup_sum others sa).
  rewrite scale_fold by (rewrite ?scale_in_keys; assumption).
  rewrite scale_fold_present.
  2:{ intros k Hk. rewrite scale_in_keys. unfold others in Hk.
      apply filter_In in Hk. tauto. }
  rewrite scale_fold by (rewrite ?scale_in_keys; assumption).
  assert (Hdis : forall k, In k others -> ~ In k parents).
  { intros k Hk. unfold others in Hk. apply filter_In in Hk.
    destruct Hk as (_ & Hk). apply negb_true_iff in Hk.
    now apply name_in_not_In. }
  assert (Hpart : part_in parents (scale_in others so (scale_in parents sp sa))
                  == pv * (25 # 100)).
  { rewrite part_in_scale_out by assumption.
    rewrite part_in_scale_in by auto.
    rewrite <- HP. unfold sp. field. lra. }
  split.
  - rewrite (part_in_out parents (scale_in others so (scale_in parents sp sa))).
    rewrite Hpart.
    assert (Hout : part_out parents
                            (scale_in others so (scale_in parents sp sa))
                   == so * part_out parents sa).
    { unfold part_out, scale_in. rewrite !map_map.
      rewrite <- Qsum_map_scale. apply Qsum_map_ext.
      intros [k v] Hkv. simpl.
      assert (Hk : In k (dict_keys sa)).
      { change k with (fst (k, v)). now apply in_map. }
      destruct (name_in k parents) eqn:E; [ring|].
      assert (E' : name_in k others = true).
      { apply name_in_In. unfold others. rewrite filter_In.
        rewrite E. auto. }
      rewrite E'. ring. }
    rewrite Hout, <- HO. unfold so. field. rewrite HO. lra.
  - intros _. rewrite lookup_sum_part
      by (rewrite ?scale_in_keys; assumption).
    rewrite Hpart. unfold cap_tolerance. lra.
Qed.

Lemma ayim_discount_off (sa : sdict Q) :
  apply_ayim ci = false -> ayim_discount ci cx y ys ye sa = sa.
Proof. intros H. unfold ayim_discount. now rewrite H. Qed.



Lemma no_floor (pv pt : Q) :
  0 <= pt <= pv -> (if Qltb (pv - pt) 0 then 0 else pv - pt) = pv - pt.
Proof.
  intros H. destruct (Qltb (pv - pt) 0) eqn:E; [|reflexivity].
  apply Qltb_lt in E. lra.
Qed.

Lemma cap_single_pool_separate (pv : Q) (sa : sdict Q) :
  separate_parent_pool ci = true -> cap_single_pool ci cx pv sa = sa.
Proof. intros H. unfold cap_single_pool. now rewrite H. Qed.

(** Before the remarriage discount the shares of a year add up to the
    present value. *)
Lemma shares_before_discount_sum (fs pv : Q) :
  0 < fs -> 0 < pv ->
  vsum (shares_before_discount ci cx ys ye diy fs pv) == pv.
Proof.
  intros Hfs Hpv. unfold shares_before_discount.
  pose proof (@parent_pool_values ci cx ys ye diy Hdiy Hnames Hbase Hparents
                                  Hfraction pv Hpv)
    as (Hpt & Hpa & _ & Hsingle & _).
  destruct (parent_pool ci cx ys ye diy pv) as [pa pt]. cbn [fst snd] in *.
  rewrite (no_floor Hpt).
  fold (split_pool (pv - pt) (non_parent_weights ci cx ys ye diy fs)).
  pose proof (@non_parent_weights_good ci cx ys ye diy Hdiy fs Hfs) as Hg.
  assert (Hnpt : 0 <= pv - pt) by lra.
  destruct (split_pool_good Hg Hnpt) as (Hsum & Hnd & Hnn & Hd).
  rewrite add_parent_amounts_vsum, Hpa.
  destruct (separate_parent_pool ci) eqn:Hsep.
  - rewrite cap_single_pool_separate by assumption. rewrite Hsum. ring.
  - specialize (Hsingle eq_refl). injection Hsingle as -> ->.
    assert (Hsum' : vsum (split_pool (pv - 0)
                                     (non_parent_weights ci cx ys ye diy fs))
                    == pv) by (rewrite Hsum; ring).
    assert (Hd' : 0 < sget_or (split_pool (pv - 0)
                                 (non_parent_weights ci cx ys ye diy fs))
                              "destek" 0) by (apply Hd; lra).
    destruct (cap_single_pool_values Hpv Hnd Hnn Hsum' Hd' Hsep) as (Hc & _).
    rewrite Hc. ring.
Qed.

(** Without the remarriage discount the final shares add up to it too. *)
Lemma year_shares_sum (fs pv : Q) :
  0 < fs -> 0 < pv -> apply_ayim ci = false ->
  vsum (year_shares ci cx y ys ye diy fs pv) == pv.
Proof.
  intros Hfs Hpv Hay. unfold year_shares.
  rewrite ayim_discount_off by assumption.
  now apply shares_before_discount_sum.
Qed.


End YearShares.

(** ** C1 and C2: the shares of a row *)

(** The facts a year of a successful run provides. *)
Lemma row_setting (ci : CalculationInput) (res : CalculationResult)
      (row : YearRow) :
  compute_support csv_rows ci = Ok res ->
  In row (rows res) ->
  exists cx,
    prepare csv_rows ci = Ok cx
    /\ cx_base cx = Sharing.base_shares ci
    /\ cx_parents cx = Sharing.parent_names ci
    /\ cx_parent_fraction cx
       = parent_fraction_of (Sharing.base_shares ci) (Sharing.parent_names ci)
    /\ (forall k, In k (dict_keys (cx_virtual_intervals cx)) ->
                  In k [VIRTUAL_SPOUSE; VIRTUAL_CHILD1; VIRTUAL_CHILD2])
    /\ dependent_intervals res = cx_dep_intervals cx
    /\ virtual_intervals res = cx_virtual_intervals cx
    /\ 0 < day_fraction (days_of_year (row_year row))
                        (supporter_days ci (cx_supporter_end cx) (row_year row))
    /\ 0 < present_value row
    /\ shares row
       = year_shares ci cx (row_year row) (year_start_of (row_year row))
                     (year_end_of (row_year row)) (days_of_year (row_year row))
                     (day_fraction (days_of_year (row_year row))
                        (supporter_days ci (cx_supporter_end cx) (row_year row)))
                     (present_value row).
Proof.
  intros H Hin.
  destruct (compute_support_Ok _ H) as (cx & Hv & Hp & Hr & _ & Hdi & Hvi).
  apply rows_loop_Ok in Hr. destruct Hr as (rs & HF & Hrows).
  rewrite Hrows in Hin.
  destruct (emitted_In _ HF Hin) as (y & _ & Hy).
  destruct (prepare_Ok _ Hp) as (_ & _ & Hvf & Hb & Hpar & Hfr).
  apply validate_input_Ok in Hv.
  pose proof (row_present_value_pos _ _ Hv Hy) as Hpv.
  destruct (year_row_Some _ _ _ Hy) as (_ & Hd & yf & _ & _ & Hyr & _ & _ & Hsh).
  exists cx. rewrite Hyr.
  repeat (split; [assumption|]).
  split; [intros k; apply (virtual_family_keys _ _ _ Hvf)|].
  repeat (split; [assumption|]).
  split; [apply day_fraction_pos; [apply days_of_year_pos | assumption]|].
  split; assumption.
Qed.

(** C1, as the code has it. For every input that passes validation and has
    distinct party names, in every row the shares as they stand before the
    remarriage discount of step 5.c add up to the row's present value,
    whether or not a 25% cap binds; the final shares are these after the
    discount, so they add up to the present value when the discount is
    off. *)
Theorem C1_shares_sum (ci : CalculationInput) (res : CalculationResult) :
  compute_support csv_rows ci = Ok res ->
  names_distinct ci = true ->
  Forall (fun row =>
            exists cx pre,
              prepare csv_rows ci = Ok cx
              /\ vsum pre == present_value row
              /\ shares row
                 = ayim_discount ci cx (row_year row)
                                 (year_start_of (row_year row))
                                 (year_end_of (row_year row)) pre
              /\ (apply_ayim ci = false ->
                  vsum (shares row) == present_value row))
         (rows res).
Proof.
  intros H Hn. apply Forall_forall. intros row Hin.
  destruct (row_setting _ _ H Hin)
    as (cx & Hp & Hb & Hpar & Hfr & Hvk & _ & _ & Hfs & Hpv & Hsh).
  exists cx.
  exists (shares_before_discount
            ci cx (year_start_of (row_year row)) (year_end_of (row_year row))
            (days_of_year (row_year row))
            (day_fraction (days_of_year (row_year row))
                          (supporter_days ci (cx_supporter_end cx)
                                          (row_year row)))
            (present_value row)).
  split; [assumption|]. split; [|split; [exact Hsh|]].
  - apply shares_before_discount_sum; auto using days_of_year_pos.
  - intros Hay. rewrite Hsh.
    apply year_shares_sum; auto using days_of_year_pos.
Qed.



(** ** The totals of a run *)

Lemma compute_support_totals (ci : CalculationInput) (res : CalculationResult) :
  compute_support csv_rows ci = Ok res ->
  total_after_fault res = total_after_sgk res * (1 - fault_rate ci / 100)
  /\ (training_applies ci = false ->
      total_support res = Qsum (map present_value (rows res))
      /\ total_after_sgk res
         = after_sgk ci (Qsum (map present_value (rows res)))
                     (compute_sgk_psd ci)).
Proof.
  unfold compute_support. intros H.
  inv_bind H. inv_bind H. inv_bind H. injection H as <-. simpl.
  split; [reflexivity|].
  unfold training_applies. intros Ht. unfold training. rewrite Ht. simpl. auto.
Qed.

Lemma rows_present_values_nonneg (ci : CalculationInput)
      (res : CalculationResult) :
  compute_support csv_rows ci = Ok res ->
  0 <= Qsum (map present_value (rows res)).
Proof.
  intros H. apply Qsum_nonneg, Forall_map, Forall_forall. intros row Hin.
  destruct (rows_from_years _ _ H Hin) as (cx & _ & Hv & Hy).
  apply validate_input_Ok in Hv. apply Qlt_le_weak.
  eapply row_present_value_pos; eauto.
Qed.

(** As long as the training cost is not deducted, no aggregate total is
    negative. *)
Lemma totals_nonneg_without_training (ci : CalculationInput)
      (res : CalculationResult) :
  compute_support csv_rows ci = Ok res ->
  training_applies ci = false ->
  0 <= total_support res /\ 0 <= total_after_sgk res
  /\ 0 <= total_after_fault res.
Proof.
  intros H Ht.
  destruct (compute_support_totals _ H) as (Hf & Hs).
  destruct (Hs Ht) as (Hts & Hta).
  pose proof (rows_present_values_nonneg _ H) as Hpv.
  destruct (compute_support_Ok _ H) as (_ & Hv & _).
  apply validate_input_Ok in Hv. destruct Hv as (_ & _ & (Hf0 & Hf100) & _).
  assert (Ha : 0 <= total_after_sgk res).
  { rewrite Hta. unfold after_sgk.
    destruct (Qltb _ 0) eqn:E; [lra|]. now apply Qltb_ge in E. }
  split; [now rewrite Hts|]. split; [assumption|].
  rewrite Hf. apply Qmult_le_0_compat; [assumption|].
  assert (fault_rate ci / 100 <= 1) by (apply Qle_shift_div_r; lra).
  lra.
Qed.

(** The fault rate enters a run through the last product only. *)
Lemma fault_rate_effect (ci : CalculationInput) (f1 f2 : Q)
      (r1 r2 : CalculationResult) :
  compute_support csv_rows (with_fault_rate ci f1) = Ok r1 ->
  compute_support csv_rows (with_fault_rate ci f2) = Ok r2 ->
  total_support r1 = total_support r2
  /\ total_after_sgk r1 = total_after_sgk r2
  /\ total_after_fault r1 = total_after_sgk r1 * (1 - f1 / 100)
  /\ total_after_fault r2 = total_after_sgk r1 * (1 - f2 / 100).
Proof.
  unfold compute_support. intros H1 H2.
  inv_bind H1. inv_bind H1. inv_bind H1.
  inv_bind H2. inv_bind H2. inv_bind H2.
  change (prepare csv_rows (with_fault_rate ci f1))
    with (prepare csv_rows ci) in Ha0.
  change (prepare csv_rows (with_fault_rate ci f2))
    with (prepare csv_rows ci) in Ha3.
  assert (a3 = a0) by congruence. subst a3.
  change (rows_loop (with_fault_rate ci f1))
    with (rows_loop ci) in Ha1.
  change (rows_loop (with_fault_rate ci f2))
    with (rows_loop ci) in Ha4.
  simpl in Ha1, Ha4.
  assert (a4 = a1) by congruence. subst a4.
  injection H1 as <-. injection H2 as <-. simpl. auto.
Qed.

(** For a total after deductions that is not negative, a higher fault rate
    gives a lower final total, or leaves it at 0. *)
Lemma fault_monotone (ci : CalculationInput) (f1 f2 : Q)
      (r1 r2 : CalculationResult) :
  compute_support csv_rows (with_fault_rate ci f1) = Ok r1 ->
  compute_support csv_rows (with_fault_rate ci f2) = Ok r2 ->
  f1 < f2 ->
  (0 < total_after_sgk r1 -> total_after_fault r2 < total_after_fault r1)
  /\ (total_after_sgk r1 == 0 ->
      total_after_fault r1 == 0 /\ total_after_fault r2 == 0)
  /\ (total_after_sgk r1 < 0 -> total_after_fault r1 < total_after_fault r2).
Proof.
  intros H1 H2 Hlt.
  destruct (fault_rate_effect _ _ _ H1 H2) as (_ & _ & -> & ->).
  assert (Hd : f1 / 100 < f2 / 100).
  { apply Qmult_lt_compat_r; [reflexivity | assumption]. }
  repeat split.
  - intros Hpos. nra.
  - rewrite H. ring.
  - rewrite H. ring.
  - intros Hneg. nra.
Qed.

End EngineFacts.

(* ================================================================== *)
(** * The properties on concrete inputs *)

(** ** C7 *)

Lemma C7_witness :
  exists res, compute_support no_csv elderly_input = Ok res
              /\ map row_year (rows res) = [2024; 2025; 2026; 2027]%Z.
Proof.
  destruct (compute_support no_csv elderly_input) as [res|e] eqn:E;
    [|vm_compute in E; discriminate].
  exists res. split; [reflexivity|].
  rewrite (proj1 (C7_rows_years no_csv elderly_input E)).
  assert (Hs : supporter_end res = mkDate 2028 1 1)
    by (vm_compute in E; injection E as <-; reflexivity).
  rewrite Hs. vm_compute. reflexivity.
Defined.

(** C7, as the specification states it, fails: the supporter's interval
    covers the whole of 2020, when the supporter is ten and the yearly
    support is zero, and the result has no row for 2020 (its first row is
    2029). *)
Lemma C7_counterexample :
  match compute_support no_csv minor_input with
  | Ok res =>
      (supporter_days minor_input (supporter_end res) 2020 = 366)%Z
      /\ _yearly_support minor_input 2020 = Ok 0
      /\ row_of res 2020 = None
      /\ option_map row_year (hd_error (rows res)) = Some 2029%Z
  | Err _ => False
  end.
Proof. vm_compute. repeat split; reflexivity. Qed.

(** ** C5 *)

Lemma C5_witness :
  exists res, compute_support no_csv elderly_input = Ok res
              /\ Forall (fun row =>
                           present_value row
                           == gross_support row
                              * discount_factor elderly_input (row_year row))
                        (rows res).
Proof.
  destruct (compute_support no_csv elderly_input) as [res|e] eqn:E;
    [|vm_compute in E; discriminate].
  exists res. split; [reflexivity|].
  exact (C5_present_value no_csv elderly_input E).
Defined.

(** C5, as the specification states it, fails: under the progressive method
    with a report rate of 10%, the row two years after the valuation year
    carries the compounding factor 1/1.1^2 = 100/121, and none of the flat
    factors 1/(1+r), 1-r, 1/(1+2r), 1-2r. *)
Lemma C5_counterexample :
  use_progresif elderly_input = true
  /\ match compute_support no_csv elderly_input with
     | Ok res =>
         match row_of res 2027 with
         | Some row =>
             present_value row == gross_support row * (100 # 121)
             /\ ~ present_value row == gross_support row * (10 # 11)
             /\ ~ present_value row == gross_support row * (9 # 10)
             /\ ~ present_value row == gross_support row * (10 # 12)
             /\ ~ present_value row == gross_support row * (8 # 10)
         | None => False
         end
     | Err _ => False
     end.
Proof.
  split; [reflexivity|]. vm_compute.
  repeat split; try reflexivity; discriminate.
Qed.

(** ** C9 *)

(** C9 at a leap-day incident: the input passes every check of
    [_validate_input], and the run ends in the [ValueError] of
    [date(2021, 2, 29)] raised inside the loop over the years. *)
Theorem C9_leap_day_incident :
  _validate_input leap_day_input = Ok tt
  /\ _yearly_support leap_day_input 2021 = Err ValueError
  /\ compute_support no_csv leap_day_input = Err ValueError.
Proof. repeat split; vm_compute; reflexivity. Qed.

(** ** C3 and C8 *)

(** C3 at a supporter aged ten with a working father, the training cost
    enabled and a social-insurance capital value above the total support:
    the total after the social-insurance deduction is floored at 0, then the
    training cost 122977631/12175 (about 10100.83) is subtracted from it, and
    both [total_after_sgk] and [total_after_fault] are negative. *)
Theorem C3_training_below_zero :
  match compute_support no_csv (training_input 0) with
  | Ok res =>
      sgk_psd_deduction res == 7200000
      /\ training_total res == 122977631 # 12175
      /\ total_after_sgk res == - (122977631 # 12175)
      /\ total_after_sgk res < 0
      /\ total_after_fault res < 0
  | Err _ => False
  end.
Proof. vm_compute. repeat split; reflexivity. Qed.

(** C8 at the same input: raising the fault rate from 0 to 50 raises
    [total_after_fault], from about -10100.83 to about -5050.42. *)
Theorem C8_fault_raises_negative_total :
  match compute_support no_csv (training_input 0),
        compute_support no_csv (training_input 50) with
  | Ok r0, Ok r50 =>
      total_after_fault r0 == - (122977631 # 12175)
      /\ total_after_fault r50 == - (122977631 # 24350)
      /\ total_after_fault r0 < total_after_fault r50
  | _, _ => False
  end.
Proof. vm_compute. repeat split; reflexivity. Qed.

(** ** C1, C2 and C4 *)

Lemma C1_witness :
  exists res,
    compute_support no_csv (family_input false true) = Ok res
    /\ Forall (fun row => vsum (shares row) == present_value row) (rows res).
Proof.
  destruct (compute_support no_csv (family_input false true)) as [res|e] eqn:E;
    [|vm_compute in E; discriminate].
  exists res. split; [reflexivity|].
  pose proof (@C1_shares_sum no_csv (family_input false true) res E eq_refl)
    as H.
  apply Forall_forall. intros row Hin.
  rewrite Forall_forall in H.
  destruct (H row Hin) as (cx & pre & _ & _ & _ & Hoff).
  exact (Hoff eq_refl).
Defined.

(** C1, as the specification states it, fails: with the remarriage discount
    on (the default), a spouse aged 34 keeps 83% of her share. In the row of
    2024 no cap binds (the mother's share is a fifth of the present value
    204025.44), and the final shares add up to 190151.71, which is 13873.73
    short of the present value. *)
Lemma C1_counterexample :
  names_distinct (couple_input true) = true
  /\ match compute_support no_csv (couple_input true) with
     | Ok res =>
         match row_of res 2024 with
         | Some row =>
             present_value row == 20402544 # 100
             /\ parent_allocation (couple_input true) row
                == (20 # 100) * present_value row
             /\ present_value row - vsum (shares row) == 1734216240 # 125000
             /\ ~ vsum (shares row) == present_value row
         | None => False
         end
     | Err _ => False
     end.
Proof.
  split; [reflexivity|]. vm_compute.
  repeat split; try reflexivity; discriminate.
Qed.


